(** * The Scratch-link BLE bridge of arduino-create-agent (package labsscratch)

    A shallow embedding of the JSON-RPC message codec ([jsonrpc.go]), of the
    request parameter types ([types.go]), of the discovery filter and
    notification relay ([matchDevice], [startAsyncScan],
    [notificationCallback]) and of the per-connection dispatcher
    ([GetHandler]), followed by the properties of the protocol engine.

    Conventions.
    - A Go [int64] is a [Z]; the only arithmetic on it, the atomic increment
      of [MsgID], is written with its wrap-around.
    - A Go [(T, error)] result is a [res T]; an [error] alone is an
      [option string] holding the text of [err.Error()].
    - A Go [panic] is the outcome [Panic]; it unwinds every caller modelled
      here, since the package contains no [recover].
    - Calls to the logger have no effect on the protocol and are left out,
      except where evaluating their arguments can panic ([DebugParams]). *)

From Stdlib Require Import ZArith NArith List String Ascii Bool Lia.
From Stdlib Require Import Strings.Byte.
From Equations Require Import Equations.
Import ListNotations.

Local Open Scope string_scope.
Local Open Scope Z_scope.

Set Implicit Arguments.
#[local] Set Warnings "-register-all".

(** ** Results of fallible calls *)

Inductive res (A : Type) : Type :=
| OK (a : A)
| Fail (err : string).
Arguments OK {A} a.
Arguments Fail {A} err.

(** ** Machine integers *)

Definition wrap64 (z : Z) : Z := (z + 2 ^ 63) mod 2 ^ 64 - 2 ^ 63.

Definition in_int64 (z : Z) : bool := (- 2 ^ 63 <=? z) && (z <=? 2 ^ 63 - 1).

(** ** encoding/base64, the standard alphabet with padding *)

Module base64.

Definition encodeStd : list ascii :=
  list_ascii_of_string
    "ABCDEFGHIJKLMNOPQRSTUVWXYZabcdefghijklmnopqrstuvwxyz0123456789+/".

Definition padChar : ascii := "="%char.

(** [enc.encode[val & 0x3F]] *)
Definition encode (val : N) : ascii :=
  nth (N.to_nat (N.land val 63)) encodeStd padChar.

(** [uint(a)<<16 | uint(b)<<8 | uint(c)] *)
Definition pack (a b c : byte) : N :=
  N.lor (N.shiftl (Byte.to_N a) 16)
        (N.lor (N.shiftl (Byte.to_N b) 8) (Byte.to_N c)).

Fixpoint EncodeToString (src : list byte) : string :=
  match src with
  | [] => EmptyString
  | [a] =>
      let val := N.shiftl (Byte.to_N a) 16 in
      String (encode (N.shiftr val 18))
        (String (encode (N.shiftr val 12))
           (String padChar (String padChar EmptyString)))
  | [a; b] =>
      let val := N.lor (N.shiftl (Byte.to_N a) 16) (N.shiftl (Byte.to_N b) 8) in
      String (encode (N.shiftr val 18))
        (String (encode (N.shiftr val 12))
           (String (encode (N.shiftr val 6))
              (String padChar EmptyString)))
  | a :: b :: c :: rest =>
      let val := pack a b c in
      String (encode (N.shiftr val 18))
        (String (encode (N.shiftr val 12))
           (String (encode (N.shiftr val 6))
              (String (encode val) (EncodeToString rest))))
  end.

(** The inverse of the alphabet: the position of a character in
    [encodeStd], [None] for a character outside it ([decodeMap] holds 0xFF
    there). *)
Fixpoint index_of (c : ascii) (l : list ascii) (i : N) : option N :=
  match l with
  | [] => None
  | x :: l' => if Ascii.eqb c x then Some i else index_of c l' (N.succ i)
  end.

Definition decodeMap (c : ascii) : option N := index_of c encodeStd 0%N.

Definition byte_of (n : N) : byte :=
  match Byte.of_N (N.land n 255) with
  | Some b => b
  | None => x00
  end.

Definition is_newline (c : ascii) : bool :=
  Ascii.eqb c "010"%char || Ascii.eqb c "013"%char.

(** One quantum of four characters at a time; a final quantum may end in
    one or two padding characters, and nothing may follow it. The decoder is
    not strict: the unused low bits of a padded quantum are not checked. *)
Fixpoint decodeQuanta (l : list ascii) : option (list byte) :=
  match l with
  | [] => Some []
  | c1 :: c2 :: c3 :: c4 :: rest =>
      match decodeMap c1, decodeMap c2 with
      | Some v1, Some v2 =>
          let hi := N.lor (N.shiftl v1 18) (N.shiftl v2 12) in
          match decodeMap c3, decodeMap c4 with
          | Some v3, Some v4 =>
              let val := N.lor hi (N.lor (N.shiftl v3 6) v4) in
              match decodeQuanta rest with
              | Some out =>
                  Some (byte_of (N.shiftr val 16) :: byte_of (N.shiftr val 8)
                          :: byte_of val :: out)
              | None => None
              end
          | Some v3, None =>
              if Ascii.eqb c4 padChar then
                match rest with
                | [] =>
                    let val := N.lor hi (N.shiftl v3 6) in
                    Some [byte_of (N.shiftr val 16); byte_of (N.shiftr val 8)]
                | _ :: _ => None
                end
              else None
          | None, _ =>
              if Ascii.eqb c3 padChar && Ascii.eqb c4 padChar then
                match rest with
                | [] => Some [byte_of (N.shiftr hi 16)]
                | _ :: _ => None
                end
              else None
          end
      | _, _ => None
      end
  | _ => None
  end.

(** [StdEncoding.DecodeString]: carriage returns and line feeds are skipped
    wherever they stand. The offset carried by Go's [CorruptInputError] is
    not computed. *)
Definition DecodeString (s : string) : res (list byte) :=
  match
    decodeQuanta
      (filter (fun c => negb (is_newline c)) (list_ascii_of_string s))
  with
  | Some out => OK out
  | None => Fail "illegal base64 data"
  end.

(** The sixty-four values of a sextet. *)
Definition sextets : list N := map N.of_nat (seq 0 64).

End base64.

(** ** github.com/google/uuid

    A [UUID] is the 128-bit number spelled by its sixteen bytes, first byte
    most significant. *)

Module uuid.

Definition UUID : Type := N.

Definition Nil : UUID := 0%N.

Definition hexdigits : list ascii := list_ascii_of_string "0123456789abcdef".

Definition hexdigit (n : N) : ascii :=
  nth (N.to_nat (N.land n 15)) hexdigits "0"%char.

(** The [w] low hexadecimal digits of [n], most significant first. *)
Fixpoint hex (w : nat) (n : N) : list ascii :=
  match w with
  | O => []
  | S w' => hex w' (N.shiftr n 4) ++ [hexdigit n]
  end.

(** [UUID.String]: xxxxxxxx-xxxx-xxxx-xxxx-xxxxxxxxxxxx *)
Definition String (u : UUID) : string :=
  let h := hex 32 u in
  let dash := "-"%char in
  string_of_list_ascii
    (firstn 8 h ++ dash :: firstn 4 (skipn 8 h) ++ dash
       :: firstn 4 (skipn 12 h) ++ dash :: firstn 4 (skipn 16 h) ++ dash
       :: skipn 20 h).

(** [xvalues]: the value of a hexadecimal digit of either case. *)
Definition xvalue (c : ascii) : option N :=
  let n := N_of_ascii c in
  if (48 <=? n)%N && (n <=? 57)%N then Some (n - 48)%N
  else if (97 <=? n)%N && (n <=? 102)%N then Some (n - 87)%N
  else if (65 <=? n)%N && (n <=? 70)%N then Some (n - 55)%N
  else None.

Fixpoint parseHex (l : list ascii) (acc : N) : option N :=
  match l with
  | [] => Some acc
  | c :: l' =>
      match xvalue c with
      | Some v => parseHex l' (acc * 16 + v)%N
      | None => None
      end
  end.

Definition lower (c : ascii) : ascii :=
  let n := N_of_ascii c in
  if (65 <=? n)%N && (n <=? 90)%N then ascii_of_N (n + 32) else c.

Definition is_dash (l : list ascii) (i : nat) : bool :=
  Ascii.eqb (nth i l " "%char) "-"%char.

(** The tail of [ParseBytes]: [b] holds at least 36 bytes, of which the
    first 36 are read. *)
Definition parseDashed (b : list ascii) : res UUID :=
  if is_dash b 8 && is_dash b 13 && is_dash b 18 && is_dash b 23 then
    match
      parseHex (firstn 8 b ++ firstn 4 (skipn 9 b) ++ firstn 4 (skipn 14 b)
                  ++ firstn 4 (skipn 19 b) ++ firstn 12 (skipn 24 b)) 0%N
    with
    | Some u => OK u
    | None => Fail "invalid UUID format"
    end
  else Fail "invalid UUID format".

(** [ParseBytes], which [UUID.UnmarshalText] calls. The length printed in
    the last error is left out. *)
Definition ParseBytes (s : string) : res UUID :=
  let b := list_ascii_of_string s in
  match List.length b with
  | 36%nat => parseDashed b
  | 45%nat =>
      if list_eq_dec ascii_dec (map lower (firstn 9 b))
           (list_ascii_of_string "urn:uuid:")
      then parseDashed (skipn 9 b)
      else Fail "invalid urn prefix"
  | 38%nat => parseDashed (skipn 1 b)
  | 32%nat =>
      match parseHex b 0%N with
      | Some u => OK u
      | None => Fail "invalid UUID format"
      end
  | _ => Fail "invalid UUID length"
  end.

End uuid.

(** ** encoding/json

    The lexical layer is not modelled: a JSON text is given by the value it
    spells. Numbers are split into integer literals and all other number
    literals, since only the former decode into an [int64]. *)

Module json.

Inductive value : Type :=
| Null
| Bool (b : bool)
| Int (n : Z)
| Float (lit : string)
| Str (s : string)
| Array (elems : list value)
| Object (members : list (string * value)).

(** [json.RawMessage]: the bytes of one JSON value, or no bytes at all
    ([None]), which is what a field holds when its key was absent. *)
Definition RawMessage : Type := option value.

Definition kind (v : value) : string :=
  match v with
  | Null => "null"
  | Bool _ => "bool"
  | Int _ | Float _ => "number"
  | Str _ => "string"
  | Array _ => "array"
  | Object _ => "object"
  end.

(** The text of an [UnmarshalTypeError], without the field path. *)
Definition typeError (v : value) (ty : string) : string :=
  "json: cannot unmarshal " ++ kind v ++ " into Go value of type " ++ ty.

Definition endOfInput : string := "unexpected end of JSON input".

(** A decoder either stops at once with an error (a failing
    [UnmarshalText]) or goes on and keeps the first type mismatch it met
    ([decodeState.savedError]). *)
Definition dec (T : Type) : Type := res (T * option string).

Definition first_error (e1 e2 : option string) : option string :=
  match e1 with
  | Some _ => e1
  | None => e2
  end.

(** A JSON null leaves a string, a number, a bool or an array untouched. *)
Definition setString (v : value) (old : string) : dec string :=
  match v with
  | Str s => OK (s, None)
  | Null => OK (old, None)
  | _ => OK (old, Some (typeError v "string"))
  end.

Definition setBool (v : value) (old : bool) : dec bool :=
  match v with
  | Bool b => OK (b, None)
  | Null => OK (old, None)
  | _ => OK (old, Some (typeError v "bool"))
  end.

Definition setInt64 (v : value) (old : Z) : dec Z :=
  match v with
  | Int n => if in_int64 n then OK (n, None)
             else OK (old, Some (typeError v "int64"))
  | Null => OK (old, None)
  | _ => OK (old, Some (typeError v "int64"))
  end.

Definition setUUID (v : value) (old : uuid.UUID) : dec uuid.UUID :=
  match v with
  | Str s =>
      match uuid.ParseBytes s with
      | OK u => OK (u, None)
      | Fail err => Fail err
      end
  | Null => OK (old, None)
  | _ => OK (old, Some (typeError v "uuid.UUID"))
  end.

(** A JSON array decoded into a fresh slice, element by element. *)
Fixpoint setElems {T : Type} (set : value -> T -> dec T) (zero : T)
    (elems : list value) : dec (list T) :=
  match elems with
  | [] => OK ([], None)
  | v :: elems' =>
      match set v zero with
      | Fail err => Fail err
      | OK (t, e1) =>
          match setElems set zero elems' with
          | Fail err => Fail err
          | OK (ts, e2) => OK (t :: ts, first_error e1 e2)
          end
      end
  end.

Definition setSlice {T : Type} (set : value -> T -> dec T) (zero : T)
    (ty : string) (v : value) (old : list T) : dec (list T) :=
  match v with
  | Array elems => setElems set zero elems
  | Null => OK ([], None)
  | _ => OK (old, Some (typeError v ty))
  end.

(** Keys are matched to field names without regard to letter case. *)
Definition fold (s : string) : string :=
  string_of_list_ascii (map uuid.lower (list_ascii_of_string s)).

Definition key_is (key name : string) : bool :=
  String.eqb (fold key) (fold name).

(** The members of an object are decoded in the order they are written,
    each into the field its key names; a repeated key overwrites. *)
Fixpoint setMembers {T : Type} (field : string -> value -> T -> dec T)
    (members : list (string * value)) (t : T) : dec T :=
  match members with
  | [] => OK (t, None)
  | (key, v) :: members' =>
      match field key v t with
      | Fail err => Fail err
      | OK (t1, e1) =>
          match setMembers field members' t1 with
          | Fail err => Fail err
          | OK (t2, e2) => OK (t2, first_error e1 e2)
          end
      end
  end.

Definition setStruct {T : Type} (field : string -> value -> T -> dec T)
    (ty : string) (v : value) (old : T) : dec T :=
  match v with
  | Object members => setMembers field members old
  | Null => OK (old, None)
  | _ => OK (old, Some (typeError v ty))
  end.

(** [json.Unmarshal(data, &t)]: the value left in [t] and the error. *)
Definition Unmarshal {T : Type} (set : value -> T -> dec T)
    (data : RawMessage) (t : T) : T * option string :=
  match data with
  | None => (t, Some endOfInput)
  | Some v =>
      match set v t with
      | Fail err => (t, Some err)
      | OK (t', saved) => (t', saved)
      end
  end.

End json.

(** ** tinygo.org/x/bluetooth: what a scan reports

    [bluetooth.NewUUID] repacks the sixteen bytes of a [uuid.UUID] into four
    words; it is injective, and is the identity on the number both spell. *)

Module bluetooth.

Definition UUID : Type := N.

Definition NewUUID (u : uuid.UUID) : UUID := u.

(** [Address]: the text given to [Address.Set]; the provider resolves it. *)
Record Address : Type := { MAC : string }.

Definition Address_Set (mac : string) : Address := {| MAC := mac |}.

Definition Address_String (a : Address) : string := MAC a.

Record ConnectionParams : Type := {
  ConnectionTimeout : Z;
  MinInterval : Z;
  MaxInterval : Z
}.

(** An advertisement: the address, the signal strength (an [int16]), the
    local name and the advertised service UUIDs of its payload. *)
Record ScanResult : Type := {
  Address_ : Address;
  RSSI_ : Z;
  LocalName : string;
  ServiceUUIDs : list UUID
}.

Definition HasServiceUUID (device : ScanResult) (u : UUID) : bool :=
  existsb (N.eqb u) (ServiceUUIDs device).

End bluetooth.

(** ** types.go *)

Record Device : Type := {
  Device_PeripheralId : string;
  Device_Name : string;
  Device_RSSI : Z
}.

Record DiscoverFilter : Type := {
  Name : string;
  NamePrefix : string;
  Services : list uuid.UUID
}.

Record DiscoverParams : Type := { Filters : list DiscoverFilter }.

Record ConnectParams : Type := { PeripheralId : string }.

Record NotificationsParams : Type := {
  Notifications_ServiceId : uuid.UUID;
  Notifications_CharacteristicId : uuid.UUID
}.

Record UpdateParams : Type := {
  ServiceId : uuid.UUID;
  CharacteristicId : uuid.UUID;
  Message : string;
  Encoding : string;
  WithResponse : bool
}.

Record ReadParams : Type := {
  Read_ServiceId : uuid.UUID;
  Read_CharacteristicId : uuid.UUID;
  StartNotifications : bool
}.

(** The zero values [DiscoverParams{}], [ConnectParams{}], ... *)
Definition zeroDiscoverFilter : DiscoverFilter :=
  {| Name := ""; NamePrefix := ""; Services := [] |}.
Definition zeroDiscoverParams : DiscoverParams := {| Filters := [] |}.
Definition zeroConnectParams : ConnectParams := {| PeripheralId := "" |}.
Definition zeroNotificationsParams : NotificationsParams :=
  {| Notifications_ServiceId := uuid.Nil;
     Notifications_CharacteristicId := uuid.Nil |}.
Definition zeroUpdateParams : UpdateParams :=
  {| ServiceId := uuid.Nil; CharacteristicId := uuid.Nil; Message := "";
     Encoding := ""; WithResponse := false |}.
Definition zeroReadParams : ReadParams :=
  {| Read_ServiceId := uuid.Nil; Read_CharacteristicId := uuid.Nil;
     StartNotifications := false |}.

(** *** The struct tags, as decoders of one member *)

Import json.

Definition lift {A T : Type} (d : dec A) (put : A -> T) : dec T :=
  match d with
  | Fail err => Fail err
  | OK (a, saved) => OK (put a, saved)
  end.

Definition fieldDiscoverFilter (key : string) (v : value) (f : DiscoverFilter)
    : dec DiscoverFilter :=
  if key_is key "name" then
    lift (setString v (Name f))
      (fun x => {| Name := x; NamePrefix := NamePrefix f; Services := Services f |})
  else if key_is key "namePrefix" then
    lift (setString v (NamePrefix f))
      (fun x => {| Name := Name f; NamePrefix := x; Services := Services f |})
  else if key_is key "services" then
    lift (setSlice setUUID uuid.Nil "[]uuid.UUID" v (Services f))
      (fun x => {| Name := Name f; NamePrefix := NamePrefix f; Services := x |})
  else OK (f, None).

Definition fieldDiscoverParams (key : string) (v : value) (p : DiscoverParams)
    : dec DiscoverParams :=
  if key_is key "filters" then
    lift (setSlice (setStruct fieldDiscoverFilter "labsscratch.DiscoverFilter")
            zeroDiscoverFilter "[]labsscratch.DiscoverFilter" v (Filters p))
      (fun x => {| Filters := x |})
  else OK (p, None).

Definition fieldConnectParams (key : string) (v : value) (p : ConnectParams)
    : dec ConnectParams :=
  if key_is key "peripheralId" then
    lift (setString v (PeripheralId p)) (fun x => {| PeripheralId := x |})
  else OK (p, None).

Definition fieldNotificationsParams (key : string) (v : value)
    (p : NotificationsParams) : dec NotificationsParams :=
  if key_is key "serviceId" then
    lift (setUUID v (Notifications_ServiceId p))
      (fun x => {| Notifications_ServiceId := x;
                   Notifications_CharacteristicId :=
                     Notifications_CharacteristicId p |})
  else if key_is key "characteristicId" then
    lift (setUUID v (Notifications_CharacteristicId p))
      (fun x => {| Notifications_ServiceId := Notifications_ServiceId p;
                   Notifications_CharacteristicId := x |})
  else OK (p, None).

Definition fieldUpdateParams (key : string) (v : value) (p : UpdateParams)
    : dec UpdateParams :=
  if key_is key "serviceId" then
    lift (setUUID v (ServiceId p))
      (fun x => {| ServiceId := x; CharacteristicId := CharacteristicId p;
                   Message := Message p; Encoding := Encoding p;
                   WithResponse := WithResponse p |})
  else if key_is key "characteristicId" then
    lift (setUUID v (CharacteristicId p))
      (fun x => {| ServiceId := ServiceId p; CharacteristicId := x;
                   Message := Message p; Encoding := Encoding p;
                   WithResponse := WithResponse p |})
  else if key_is key "message" then
    lift (setString v (Message p))
      (fun x => {| ServiceId := ServiceId p;
                   CharacteristicId := CharacteristicId p;
                   Message := x; Encoding := Encoding p;
                   WithResponse := WithResponse p |})
  else if key_is key "encoding" then
    lift (setString v (Encoding p))
      (fun x => {| ServiceId := ServiceId p;
                   CharacteristicId := CharacteristicId p;
                   Message := Message p; Encoding := x;
                   WithResponse := WithResponse p |})
  else if key_is key "withResponse" then
    lift (setBool v (WithResponse p))
      (fun x => {| ServiceId := ServiceId p;
                   CharacteristicId := CharacteristicId p;
                   Message := Message p; Encoding := Encoding p;
                   WithResponse := x |})
  else OK (p, None).

Definition fieldReadParams (key : string) (v : value) (p : ReadParams)
    : dec ReadParams :=
  if key_is key "serviceId" then
    lift (setUUID v (Read_ServiceId p))
      (fun x => {| Read_ServiceId := x;
                   Read_CharacteristicId := Read_CharacteristicId p;
                   StartNotifications := StartNotifications p |})
  else if key_is key "characteristicId" then
    lift (setUUID v (Read_CharacteristicId p))
      (fun x => {| Read_ServiceId := Read_ServiceId p;
                   Read_CharacteristicId := x;
                   StartNotifications := StartNotifications p |})
  else if key_is key "startNotifications" then
    lift (setBool v (StartNotifications p))
      (fun x => {| Read_ServiceId := Read_ServiceId p;
                   Read_CharacteristicId := Read_CharacteristicId p;
                   StartNotifications := x |})
  else OK (p, None).

(** *** The five [...ParamsFromJson] *)

Definition DiscoverParamsFromJson (j : RawMessage) : res DiscoverParams :=
  let '(params, err) :=
    Unmarshal (setStruct fieldDiscoverParams "labsscratch.DiscoverParams")
      j zeroDiscoverParams in
  match err with
  | Some e => Fail e
  | None => OK params
  end.

Definition ConnectParamsFromJson (j : RawMessage) : res ConnectParams :=
  let '(params, err) :=
    Unmarshal (setStruct fieldConnectParams "labsscratch.ConnectParams")
      j zeroConnectParams in
  match err with
  | Some e => Fail e
  | None => OK params
  end.

Definition NotificationsParamsFromJson (j : RawMessage)
    : res NotificationsParams :=
  let '(params, err) :=
    Unmarshal
      (setStruct fieldNotificationsParams "labsscratch.NotificationsParams")
      j zeroNotificationsParams in
  match err with
  | Some e => Fail e
  | None => OK params
  end.

Definition UpdateParamsFromJson (j : RawMessage) : res UpdateParams :=
  let '(params, err) :=
    Unmarshal (setStruct fieldUpdateParams "labsscratch.UpdateParams")
      j zeroUpdateParams in
  match err with
  | Some e => Fail e
  | None => OK params
  end.

Definition ReadParamsFromJson (j : RawMessage) : res ReadParams :=
  let '(params, err) :=
    Unmarshal (setStruct fieldReadParams "labsscratch.ReadParams")
      j zeroReadParams in
  match err with
  | Some e => Fail e
  | None => OK params
  end.

(** ** jsonrpc.go: the message codec *)

Record Msg : Type := {
  Id : Z;
  Jsonrpc : string;
  Method : string;
  Params : RawMessage
}.

(** The dynamic values the handlers store in [Result.Result], an
    [interface{}]: [nil], an [int], a [string], a [map[string]string]. *)
Inductive any : Type :=
| AnyNil
| AnyInt (n : Z)
| AnyString (s : string)
| AnyStringMap (m : list (string * string)).

Record Result : Type := {
  Result_Id : Z;
  Result_Jsonrpc : string;
  Result_Result : any;
  Result_Encoding : string
}.

Record Error : Type := {
  Error_Id : Z;
  Error_Jsonrpc : string;
  Error_Error : string
}.

Definition zeroMsg : Msg :=
  {| Id := 0; Jsonrpc := ""; Method := ""; Params := None |}.

(** [func (m Msg) RespondBytes(buf []byte) Result] *)
Definition RespondBytes (m : Msg) (buf : list byte) : Result :=
  {| Result_Id := Id m;
     Result_Jsonrpc := "2.0";
     Result_Encoding := "base64";
     Result_Result := AnyString (base64.EncodeToString buf) |}.

(** [func (m Msg) Respond(data interface{}) Result] *)
Definition Respond (m : Msg) (data : any) : Result :=
  {| Result_Id := Id m;
     Result_Jsonrpc := "2.0";
     Result_Result := data;
     Result_Encoding := "" |}.

(** [func (m Msg) Error(err string) Error] *)
Definition Msg_Error (m : Msg) (err : string) : Error :=
  {| Error_Id := Id m; Error_Jsonrpc := "2.0"; Error_Error := err |}.

(** What a goroutine does when it is done with a piece of code: it goes on
    with a value, it panics, or it waits forever on a channel. *)
Inductive Outcome (A : Type) : Type :=
| Return (a : A)
| Panic (reason : string)
| Blocked.
Arguments Return {A} a.
Arguments Panic {A} reason.
Arguments Blocked {A}.

(** [json.Unmarshal(m.Params, &out)] for [out map[string]interface{}]:
    an object fills the map, a null leaves it nil, anything else is an
    error. *)
Definition setMap (v : value) (old : list (string * value))
    : dec (list (string * value)) :=
  match v with
  | Object members => OK (members, None)
  | Null => OK ([], None)
  | _ => OK (old, Some (typeError v "map[string]interface {}"))
  end.

(** [func (m Msg) DebugParams() map[string]interface{}] *)
Definition DebugParams (m : Msg) : Outcome (list (string * value)) :=
  let '(out, err) := Unmarshal setMap (Params m) [] in
  match err with
  | Some e => Panic e
  | None => Return out
  end.

(** The values [NewMsg] is given as [params], and [json.Marshal] of them.
    The [encoding] member is tagged [omitempty]. Marshalling these structs
    cannot fail. *)
Inductive PushParams : Type :=
| OfDevice (d : Device)
| OfUpdateParams (p : UpdateParams).

Definition Marshal (params : PushParams) : res value :=
  match params with
  | OfDevice d =>
      OK (Object [("peripheralId", Str (Device_PeripheralId d));
                  ("name", Str (Device_Name d));
                  ("rssi", Int (Device_RSSI d))])
  | OfUpdateParams p =>
      OK (Object
            ([("serviceId", Str (uuid.String (ServiceId p)));
              ("characteristicId", Str (uuid.String (CharacteristicId p)));
              ("message", Str (Message p))]
             ++ (if String.eqb (Encoding p) "" then []
                 else [("encoding", Str (Encoding p))])
             ++ [("withResponse", Bool (WithResponse p))]))
  end.

(** The three shapes [WsSend] accepts. *)
Inductive Frame : Type :=
| FrameMsg (m : Msg)
| FrameError (e : Error)
| FrameResult (r : Result).

(** *** Reading from the connection *)

Inductive error : Type :=
| io_EOF
| errorString (text : string)
| wrapError (prefix : string) (err : error).

(** [errors.Is(err, io.EOF)] *)
Fixpoint is_EOF (err : error) : bool :=
  match err with
  | io_EOF => true
  | errorString _ => false
  | wrapError _ e => is_EOF e
  end.

(** What one [c.Read(buff)] returns: [n] bytes that spell the JSON value
    [data] ([None] when they are not a JSON text), or an error. A connection
    is the list of what its successive reads return; once the list is used
    up the peer is gone and every read returns [io.EOF]. *)
Inductive ReadEvent : Type :=
| ReadFrame (n : Z) (data : option value)
| ReadFail (err : error).

Definition Conn : Type := list ReadEvent.

Definition fieldMsg (key : string) (v : value) (m : Msg) : dec Msg :=
  if key_is key "id" then
    lift (setInt64 v (Id m))
      (fun x => {| Id := x; Jsonrpc := Jsonrpc m; Method := Method m;
                   Params := Params m |})
  else if key_is key "jsonrpc" then
    lift (setString v (Jsonrpc m))
      (fun x => {| Id := Id m; Jsonrpc := x; Method := Method m;
                   Params := Params m |})
  else if key_is key "method" then
    lift (setString v (Method m))
      (fun x => {| Id := Id m; Jsonrpc := Jsonrpc m; Method := x;
                   Params := Params m |})
  else if key_is key "params" then
    OK ({| Id := Id m; Jsonrpc := Jsonrpc m; Method := Method m;
           Params := Some v |}, None)
  else OK (m, None).

(** The loop of [wsRead]; [msg] is declared before the loop, so a frame
    that is skipped leaves in it the fields it set. *)
Fixpoint wsRead_from (msg : Msg) (c : Conn)
    : Outcome (Msg * option error) * Conn :=
  match c with
  | [] => (Return (msg, Some (wrapError "ws read" io_EOF)), [])
  | ReadFail err :: c' => (Return (msg, Some (wrapError "ws read" err)), c')
  | ReadFrame n data :: c' =>
      if 512 <=? n then (Panic "too big", c')
      else
        let '(msg', err) := Unmarshal (setStruct fieldMsg "labsscratch.Msg")
                              data msg in
        match err with
        | Some e =>
            (Return (msg', Some (wrapError "ws read error" (errorString e))), c')
        | None =>
            if (String.length (Method msg') =? 0)%nat
            then wsRead_from msg' c'
            else (Return (msg', None), c')
        end
  end.

(** [func wsRead(c *websocket.Conn) (Msg, error)] *)
Definition wsRead (c : Conn) : Outcome (Msg * option error) * Conn :=
  wsRead_from zeroMsg c.

Definition inspect {A : Type} (a : A) : {b : A | a = b} := exist _ a eq_refl.

(** [func WsReadLoop(c *websocket.Conn) <-chan Msg]. The anonymous function
    is called, not started as a goroutine: the channel is filled before it
    is returned, and nobody receives from it meanwhile. [out] is what the
    channel holds; its capacity is 100, so the send of a 101st message never
    completes. The result is what the closed channel will deliver. *)
Equations? WsReadLoop_from (c : Conn) (out : list Msg) : Outcome (list Msg)
  by wf (List.length c) lt :=
  WsReadLoop_from c out with inspect (wsRead c) := {
    | exist _ (Panic reason, _) _ => Panic reason
    | exist _ (Blocked, _) _ => Blocked
    | exist _ (Return (_, Some err), _) _ =>
        if is_EOF err then Return out (* break *) else Return out (* return *)
    | exist _ (Return (msg, None), c') H =>
        if (List.length out <? 100)%nat
        then WsReadLoop_from c' (out ++ [msg])
        else Blocked
  }.
Proof.
  unfold wsRead in H. clear WsReadLoop_from. revert H.
  generalize zeroMsg. clear out.
  induction c as [|ev c IH]; intros msg0 H; simpl in H.
  - discriminate.
  - destruct ev as [n data|err]; [|discriminate].
    destruct (512 <=? n); [discriminate|].
    destruct (Unmarshal _ data msg0) as [msg' [e|]]; [discriminate|].
    destruct (String.length (Method msg') =? 0)%nat.
    + apply IH in H. simpl. lia.
    + inversion H; subst. simpl. lia.
Qed.

Definition WsReadLoop (c : Conn) : Outcome (list Msg) := WsReadLoop_from c [].

(** ** The BLE capability provider

    The radio stack is outside the package. Its connection and GATT
    operations are taken as given: each is a function of the provider's own
    state [World]. A notification callback is the closure built by
    [notificationCallback]; it is represented by the two values it captures
    (the connection it also captures is the session's own). *)

Record Closure : Type := {
  captured_ServiceId : uuid.UUID;
  captured_CharacteristicId : uuid.UUID
}.

Record Provider : Type := {
  World : Type;
  BtDevice : Type;
  DeviceService : Type;
  DeviceCharacteristic : Type;
  (** [adapter.Connect]: the pointer (nil is [None]) and the error *)
  Connect : bluetooth.Address -> bluetooth.ConnectionParams -> World ->
            (option BtDevice * option string) * World;
  DiscoverServices : BtDevice -> list bluetooth.UUID -> World ->
                     res (list DeviceService) * World;
  DiscoverCharacteristics : DeviceService -> list bluetooth.UUID -> World ->
                            res (list DeviceCharacteristic) * World;
  EnableNotifications : DeviceCharacteristic -> option Closure -> World ->
                        option string * World;
  WriteWithoutResponse : DeviceCharacteristic -> list byte -> World ->
                         res Z * World;
  (** [char.Read(buf)] for a buffer of the given length: the count it
      returns and the bytes the buffer then holds *)
  Read : DeviceCharacteristic -> Z -> World -> res (Z * list byte) * World
}.

Section Session.

Context (P : Provider).

(** Everything the session does that can be seen from outside, in the
    order it is done: frames handed to the connection and calls to the
    provider. *)
Inductive Event : Type :=
| WsWrite (f : Frame)
| CallStopScan
| CallScan (filter : list DiscoverFilter)
| CallConnect (mac : bluetooth.Address) (params : bluetooth.ConnectionParams)
| CallDiscoverServices (d : BtDevice P) (uuids : list bluetooth.UUID)
| CallDiscoverCharacteristics (s : DeviceService P) (uuids : list bluetooth.UUID)
| CallEnableNotifications (ch : DeviceCharacteristic P) (cb : option Closure)
| CallWriteWithoutResponse (ch : DeviceCharacteristic P) (buf : list byte)
| CallRead (ch : DeviceCharacteristic P).

(** A [chan Device] of capacity 10: the devices it buffers, oldest first,
    and the device of a send that waits for room. *)
Record Chan : Type := {
  buffered : list Device;
  waiting : option Device
}.

(** The scan the adapter is running: the [filter] its callback captured and
    the channel (by position in [chans]) the callback sends to. *)
Record ScanTask : Type := {
  scan_filter : list DiscoverFilter;
  scan_devices : nat
}.

Record State : Type := {
  world : World P;
  (** [var MsgID int64], shared by the whole process *)
  MsgID : Z;
  (** [var DEVICE *bluetooth.Device] of the handler *)
  DEVICE : option (BtDevice P);
  scanning : option ScanTask;
  chans : list Chan;
  trace : list Event
}.

Definition M (A : Type) : Type := State -> Outcome A * State.

Definition ret {A : Type} (a : A) : M A := fun st => (Return a, st).

Definition bind {A B : Type} (c : M A) (k : A -> M B) : M B :=
  fun st =>
    match c st with
    | (Return a, st') => k a st'
    | (Panic reason, st') => (Panic reason, st')
    | (Blocked, st') => (Blocked, st')
    end.

Definition panic {A : Type} (reason : string) : M A :=
  fun st => (Panic reason, st).

Definition emit (ev : Event) : M unit :=
  fun st =>
    (Return tt,
     {| world := world st; MsgID := MsgID st; DEVICE := DEVICE st;
        scanning := scanning st; chans := chans st;
        trace := trace st ++ [ev] |}).

(** A call to the provider: logged, then run on the provider's state. *)
Definition call {A : Type} (ev : Event) (op : World P -> A * World P) : M A :=
  fun st =>
    let '(a, w) := op (world st) in
    (Return a,
     {| world := w; MsgID := MsgID st; DEVICE := DEVICE st;
        scanning := scanning st; chans := chans st;
        trace := trace st ++ [ev] |}).

Definition set_DEVICE (d : option (BtDevice P)) : M unit :=
  fun st =>
    (Return tt,
     {| world := world st; MsgID := MsgID st; DEVICE := d;
        scanning := scanning st; chans := chans st; trace := trace st |}).

Definition set_scan (task : option ScanTask) (cs : list Chan) : M unit :=
  fun st =>
    (Return tt,
     {| world := world st; MsgID := MsgID st; DEVICE := DEVICE st;
        scanning := task; chans := cs; trace := trace st |}).

Definition get : M State := fun st => (Return st, st).

End Session.

Arguments WsWrite {P} f.
Arguments CallStopScan {P}.
Arguments CallScan {P} filter.
Arguments CallConnect {P} mac params.
Arguments CallDiscoverServices {P} d uuids.
Arguments CallDiscoverCharacteristics {P} s uuids.
Arguments CallEnableNotifications {P} ch cb.
Arguments CallWriteWithoutResponse {P} ch buf.
Arguments CallRead {P} ch.
Arguments get {P}.

Declare Scope session_scope.
Delimit Scope session_scope with session.
Notation "x <- c ;; k" := (bind c (fun x => k))
  (at level 61, c at next level, right associativity) : session_scope.
Notation "c ;;; k" := (bind c (fun _ => k))
  (at level 61, right associativity) : session_scope.

(** ** Discovery: [matchDevice] and the scan callback *)

(** The inner loop of [matchDevice], over [filter.Services]. *)
Fixpoint hasServices (device : bluetooth.ScanResult) (services : list uuid.UUID)
    : bool :=
  match services with
  | [] => true
  | service :: rest =>
      if negb (bluetooth.HasServiceUUID device (bluetooth.NewUUID service))
      then false
      else hasServices device rest
  end.

(** [func matchDevice(device bluetooth.ScanResult, filters []DiscoverFilter) bool]:
    [false] at the first filter that rejects the device. *)
Fixpoint matchDevice (device : bluetooth.ScanResult)
    (filters : list DiscoverFilter) : bool :=
  match filters with
  | [] => true
  | filter :: rest =>
      if negb (String.length (Name filter) =? 0)%nat
         && negb (String.eqb (Name filter) (bluetooth.LocalName device))
      then false
      else if negb (hasServices device (Services filter)) then false
      else matchDevice device rest
  end.

(** The callback [startAsyncScan] gives to [adapter.Scan]: the device it
    sends on the channel, if any. *)
Definition scanCallback (filter : list DiscoverFilter)
    (device : bluetooth.ScanResult) : option Device :=
  if (String.length (bluetooth.LocalName device) =? 0)%nat then None
  else if negb (matchDevice device filter) then None
  else Some {| Device_PeripheralId :=
                 bluetooth.Address_String (bluetooth.Address_ device);
               Device_Name := bluetooth.LocalName device;
               Device_RSSI := bluetooth.RSSI_ device |}.

Section Dispatcher.

Context (P : Provider).

Local Open Scope session_scope.

Definition with_MsgID (id : Z) (st : State P) : State P :=
  {| world := world st; MsgID := id; DEVICE := DEVICE st;
     scanning := scanning st; chans := chans st; trace := trace st |}.

(** [func NewMsg(method string, params interface{}) Msg];
    [atomic.AddInt64(&MsgID, 1)] wraps around. *)
Definition NewMsg (method : string) (params : PushParams) : M P Msg :=
  match Marshal params with
  | Fail err => panic err
  | OK buff =>
      fun st =>
        let id := wrap64 (MsgID st + 1) in
        (Return {| Id := id; Jsonrpc := "2.0"; Method := method;
                   Params := Some buff |},
         with_MsgID id st)
  end.

(** [func WsSend(c, data) error]. Marshalling a frame built by this package
    cannot fail; the error of [c.Write] is dropped by every caller and is
    not modelled. *)
Definition WsSend (data : Frame) : M P (option string) :=
  emit (WsWrite data) ;;; ret None.

(** [func notificationCallback(c, ServiceId, CharacteristicId) func(buf []byte)]:
    the closure, and what calling it does. *)
Definition notificationCallback (ServiceId CharacteristicId : uuid.UUID)
    : Closure :=
  {| captured_ServiceId := ServiceId;
     captured_CharacteristicId := CharacteristicId |}.

Definition invoke (cb : Closure) (buf : list byte) : M P unit :=
  m <- NewMsg "characteristicDidChange"
         (OfUpdateParams
            {| ServiceId := captured_ServiceId cb;
               CharacteristicId := captured_CharacteristicId cb;
               Message := base64.EncodeToString buf;
               Encoding := "base64";
               WithResponse := false |}) ;;
  WsSend (FrameMsg m) ;;; ret tt.

(** [adapter.StopScan()]: the running scan, if any, is told to return. *)
Definition StopScan : M P (option string) :=
  emit CallStopScan ;;;
  st <- get ;;
  match scanning st with
  | None => ret (Some "no scan in progress")
  | Some _ => set_scan None (chans st) ;;; ret None
  end.

(** [func startAsyncScan(adapter, filter) <-chan Device]: the previous scan
    is stopped, a channel is made and a goroutine runs [adapter.Scan] with
    the callback above until the scan is stopped. The goroutine is taken to
    have entered [Scan] when [startAsyncScan] returns. *)
Definition startAsyncScan (filter : list DiscoverFilter) : M P nat :=
  StopScan ;;;
  st <- get ;;
  let devices := List.length (chans st) in
  set_scan (Some {| scan_filter := filter; scan_devices := devices |})
           (chans st ++ [{| buffered := []; waiting := None |}]) ;;;
  emit (CallScan filter) ;;;
  ret devices.

Definition nilPointerDereference : string :=
  "runtime error: invalid memory address or nil pointer dereference".

(** [*DEVICE], and a method called through [DEVICE]: a nil pointer panics. *)
Definition deref_DEVICE : M P (BtDevice P) :=
  fun st =>
    match DEVICE st with
    | Some d => (Return d, st)
    | None => (Panic nilPointerDereference, st)
    end.

Definition indexOutOfRange : string :=
  "runtime error: index out of range [0] with length 0".

(** [func getDeviceCharacteristic(device, serviceId, characteristicId)] *)
Definition getDeviceCharacteristic (device : BtDevice P)
    (serviceId characteristicId : bluetooth.UUID)
    : M P (res (DeviceCharacteristic P)) :=
  r <- call (CallDiscoverServices device [serviceId])
         (@DiscoverServices P device [serviceId]) ;;
  match r with
  | Fail err => ret (Fail err)
  | OK services =>
      match services with
      | [] => panic indexOutOfRange
      | service0 :: _ =>
          r' <- call (CallDiscoverCharacteristics service0 [characteristicId])
                  (@DiscoverCharacteristics P service0 [characteristicId]) ;;
          match r' with
          | Fail err => ret (Fail err)
          | OK chars =>
              match chars with
              | [] => panic indexOutOfRange
              | char0 :: _ => ret (OK char0)
              end
          end
      end
  end.

(** *** The cases of the [switch msg.Method] in [GetHandler]

    A [continue] ends the case. *)

Definition protocolVersion : any := AnyStringMap [("protocol", "1.3")].

Definition reply_error (msg : Msg) (err : string) : M P unit :=
  WsSend (FrameError (Msg_Error msg err)) ;;; ret tt.

Definition reply (msg : Msg) (data : any) : M P unit :=
  WsSend (FrameResult (Respond msg data)) ;;; ret tt.

Definition case_getVersion (msg : Msg) : M P unit :=
  reply msg protocolVersion.

(** The goroutine that forwards the devices of the channel is started
    here; what it does is the step [Forward] below. *)
Definition case_discover (msg : Msg) : M P unit :=
  match DiscoverParamsFromJson (Params msg) with
  | Fail err => reply_error msg err
  | OK params =>
      startAsyncScan (Filters params) ;;;
      reply msg AnyNil
  end.

Definition defaultConnectionParams : bluetooth.ConnectionParams :=
  {| bluetooth.ConnectionTimeout := 0;
     bluetooth.MinInterval := 0;
     bluetooth.MaxInterval := 0 |}.

Definition case_connect (msg : Msg) : M P unit :=
  match ConnectParamsFromJson (Params msg) with
  | Fail err => reply_error msg err
  | OK params =>
      StopScan ;;;
      let mac := bluetooth.Address_Set (PeripheralId params) in
      r <- call (CallConnect mac defaultConnectionParams)
             (@Connect P mac defaultConnectionParams) ;;
      set_DEVICE (fst r) ;;;
      match snd r with
      | Some err => reply_error msg err
      | None => reply msg AnyNil
      end
  end.

Definition case_startNotifications (msg : Msg) : M P unit :=
  match NotificationsParamsFromJson (Params msg) with
  | Fail err => reply_error msg err
  | OK params =>
      device <- deref_DEVICE ;;
      r <- getDeviceCharacteristic device
             (bluetooth.NewUUID (Notifications_ServiceId params))
             (bluetooth.NewUUID (Notifications_CharacteristicId params)) ;;
      match r with
      | Fail err => reply_error msg err
      | OK char =>
          let cb := notificationCallback
                      (Notifications_CharacteristicId params)
                      (Notifications_CharacteristicId params) in
          e <- call (CallEnableNotifications char (Some cb))
                 (@EnableNotifications P char (Some cb)) ;;
          match e with
          | Some err => reply_error msg err
          | None => reply msg AnyNil
          end
      end
  end.

Definition case_write (msg : Msg) : M P unit :=
  match UpdateParamsFromJson (Params msg) with
  | Fail err => reply_error msg err
  | OK params =>
      if negb (String.eqb (Encoding params) "base64") then
        ret tt
      else
        device <- deref_DEVICE ;;
        let serviceId := bluetooth.NewUUID (ServiceId params) in
        r <- call (CallDiscoverServices device [serviceId])
               (@DiscoverServices P device [serviceId]) ;;
        match r with
        | Fail err => reply_error msg err
        | OK services =>
            match services with
            | [] => panic indexOutOfRange
            | service0 :: _ =>
                let characteristicId :=
                  bluetooth.NewUUID (CharacteristicId params) in
                r' <- call (CallDiscoverCharacteristics service0 [characteristicId])
                        (@DiscoverCharacteristics P service0 [characteristicId]) ;;
                match r' with
                | Fail err => reply_error msg err
                | OK chars =>
                    match chars with
                    | [] => panic indexOutOfRange
                    | char :: _ =>
                        match base64.DecodeString (Message params) with
                        | Fail err => reply_error msg err
                        | OK buf =>
                            w <- call (CallWriteWithoutResponse char buf)
                                   (@WriteWithoutResponse P char buf) ;;
                            match w with
                            | Fail err => reply_error msg err
                            | OK n => reply msg (AnyInt n)
                            end
                        end
                    end
                end
            end
        end
  end.

Definition case_read (msg : Msg) : M P unit :=
  match ReadParamsFromJson (Params msg) with
  | Fail err => reply_error msg err
  | OK params =>
      device <- deref_DEVICE ;;
      r <- getDeviceCharacteristic device
             (bluetooth.NewUUID (Read_ServiceId params))
             (bluetooth.NewUUID (Read_CharacteristicId params)) ;;
      match r with
      | Fail err => reply_error msg err
      | OK char =>
          e <- (if StartNotifications params then
                  let cb := notificationCallback
                              (Read_CharacteristicId params)
                              (Read_CharacteristicId params) in
                  call (CallEnableNotifications char (Some cb))
                    (@EnableNotifications P char (Some cb))
                else ret None) ;;
          match e with
          | Some err => reply_error msg err
          | None =>
              rd <- call (CallRead char) (@Read P char 512) ;;
              match rd with
              | Fail err => reply_error msg err
              | OK (n, buf) =>
                  if (n <? 0) || (512 <? n) then
                    panic "runtime error: slice bounds out of range"
                  else
                    WsSend (FrameResult
                              (RespondBytes msg (firstn (Z.to_nat n) buf))) ;;;
                    ret tt
              end
          end
      end
  end.

Definition case_stopNotifications (msg : Msg) : M P unit :=
  match NotificationsParamsFromJson (Params msg) with
  | Fail err => reply_error msg err
  | OK params =>
      device <- deref_DEVICE ;;
      r <- getDeviceCharacteristic device
             (bluetooth.NewUUID (Notifications_ServiceId params))
             (bluetooth.NewUUID (Notifications_CharacteristicId params)) ;;
      match r with
      | Fail err => reply_error msg err
      | OK char =>
          e <- call (CallEnableNotifications char None)
                 (@EnableNotifications P char None) ;;
          match e with
          | Some err => reply_error msg err
          | None => reply msg AnyNil
          end
      end
  end.

(** The arguments of [log.Errorf] are evaluated before the call. *)
Definition case_default (msg : Msg) : M P unit :=
  match DebugParams msg with
  | Return _ => ret tt
  | Panic reason => panic reason
  | Blocked => fun st => (Blocked, st)
  end.

(** One turn of [for msg := range msgs]. *)
Definition dispatch (msg : Msg) : M P unit :=
  if String.eqb (Method msg) "getVersion" then case_getVersion msg
  else if String.eqb (Method msg) "discover" then case_discover msg
  else if String.eqb (Method msg) "connect" then case_connect msg
  else if String.eqb (Method msg) "startNotifications"
  then case_startNotifications msg
  else if String.eqb (Method msg) "write" then case_write msg
  else if String.eqb (Method msg) "read" then case_read msg
  else if String.eqb (Method msg) "stopNotifications"
  then case_stopNotifications msg
  else case_default msg.

Fixpoint forEach {A : Type} (body : A -> M P unit) (l : list A) : M P unit :=
  match l with
  | [] => ret tt
  | a :: l' => body a ;;; forEach body l'
  end.

(** [func GetHandler(adapter) websocket.Handler], the handler it returns,
    run on a connection whose reads are [c]. *)
Definition GetHandler (c : Conn) : M P unit :=
  match WsReadLoop c with
  | Return msgs => forEach dispatch msgs
  | Panic reason => panic reason
  | Blocked => fun st => (Blocked, st)
  end.

(** ** The goroutines around the dispatcher

    Besides the dispatcher, three things act on the session: the adapter
    calls the scan callback with an advertisement, a forwarding goroutine
    takes a device from its channel and pushes it, the radio stack calls a
    notification callback it was given. Each is one atomic step; a schedule
    is a list of steps. *)

Inductive Action : Type :=
| Request (msg : Msg)
| Advertise (device : bluetooth.ScanResult)
| Forward (devices : nat)
| Notify (cb : Closure) (buf : list byte).

Fixpoint update {A : Type} (l : list A) (i : nat) (a : A) : list A :=
  match l, i with
  | [], _ => []
  | _ :: l', O => a :: l'
  | x :: l', S i' => x :: update l' i' a
  end.

(** [devices <- d]: buffered if there is room for it, else the sender
    waits. *)
Definition send (ch : Chan) (d : Device) : Chan :=
  if (List.length (buffered ch) <? 10)%nat
  then {| buffered := buffered ch ++ [d]; waiting := waiting ch |}
  else {| buffered := buffered ch; waiting := Some d |}.

(** The adapter reports [device] to the running scan. While the callback
    waits on its channel the scan goroutine takes no advertisement. *)
Definition advertise (device : bluetooth.ScanResult) : M P unit :=
  st <- get ;;
  match scanning st with
  | None => ret tt
  | Some task =>
      match nth_error (chans st) (scan_devices task) with
      | None => ret tt
      | Some ch =>
          match waiting ch with
          | Some _ => ret tt
          | None =>
              match scanCallback (scan_filter task) device with
              | None => ret tt
              | Some d =>
                  set_scan (scanning st)
                    (update (chans st) (scan_devices task) (send ch d))
              end
          end
      end
  end.

(** One turn of [for device := range devices] in the goroutine started by
    the [discover] case: a device is received, which lets a waiting send
    complete, and is pushed. *)
Definition forward (devices : nat) : M P unit :=
  st <- get ;;
  match nth_error (chans st) devices with
  | None => ret tt
  | Some ch =>
      match buffered ch with
      | [] => ret tt
      | device :: rest =>
          set_scan (scanning st)
            (update (chans st) devices
               {| buffered := match waiting ch with
                              | Some d => rest ++ [d]
                              | None => rest
                              end;
                  waiting := None |}) ;;;
          m <- NewMsg "didDiscoverPeripheral" (OfDevice device) ;;
          WsSend (FrameMsg m) ;;; ret tt
      end
  end.

Definition step (a : Action) : M P unit :=
  match a with
  | Request msg => dispatch msg
  | Advertise device => advertise device
  | Forward devices => forward devices
  | Notify cb buf => invoke cb buf
  end.

Definition run (schedule : list Action) : M P unit := forEach step schedule.

End Dispatcher.

Arguments NewMsg {P} method params.
Arguments WsSend {P} data.

(** ** A provider to run the dispatcher on

    One peripheral with one value: every service and characteristic asked
    for is found, a write stores its bytes, a read returns the stored bytes
    in a buffer of the asked length, and the callbacks given to
    [EnableNotifications] are kept by characteristic. *)

Module Echo.

Record peripheral : Type := {
  stored : list byte;
  callbacks : list (bluetooth.UUID * Closure)
}.

Definition fill (len : Z) (v : list byte) : list byte :=
  firstn (Z.to_nat len) v
    ++ repeat x00 (Z.to_nat len - List.length v).

Definition provider : Provider :=
  {| World := peripheral;
     BtDevice := bluetooth.Address;
     DeviceService := bluetooth.UUID;
     DeviceCharacteristic := bluetooth.UUID;
     Connect := fun mac _ w => ((Some mac, None), w);
     DiscoverServices := fun _ uuids w => (OK uuids, w);
     DiscoverCharacteristics := fun _ uuids w => (OK uuids, w);
     EnableNotifications := fun ch cb w =>
       (None,
        {| stored := stored w;
           callbacks :=
             match cb with
             | Some f => [(ch, f)]
             | None => []
             end
             ++ filter (fun e => negb (N.eqb (fst e) ch)) (callbacks w) |});
     WriteWithoutResponse := fun _ buf w =>
       (OK (Z.of_nat (List.length buf)),
        {| stored := buf; callbacks := callbacks w |});
     Read := fun _ len w =>
       (OK (Z.min (Z.of_nat (List.length (stored w))) len, fill len (stored w)),
        w) |}.

Definition start : State provider :=
  @Build_State provider {| stored := []; callbacks := [] |} 0 None None [] [].

End Echo.

(** The frames written to the connection, oldest first. *)
Definition written {P : Provider} (evs : list (Event P)) : list Frame :=
  flat_map (fun ev => match ev with WsWrite f => [f] | _ => [] end) evs.

(** ** Notions and fixtures of the statements *)

Local Open Scope list_scope.

(** The text of a service and of a characteristic id, and a request frame
    as it is read from the connection. *)
Definition service_text : string := "6e400001-b5a3-f393-e0a9-e50e24dcca9e".
Definition characteristic_text : string := "6e400002-b5a3-f393-e0a9-e50e24dcca9e".

Definition request (id : Z) (method : string) (params : list (string * json.value))
    : ReadEvent :=
  ReadFrame 100
    (Some (json.Object [("id", json.Int id); ("jsonrpc", json.Str "2.0");
                        ("method", json.Str method);
                        ("params", json.Object params)])).

(** What the protocol description says of one filter entry: its name is
    empty or is the advertised local name, and each of its services is
    advertised. *)
Definition filterMatches (device : bluetooth.ScanResult) (f : DiscoverFilter)
    : Prop :=
  (Name f = "" \/ Name f = bluetooth.LocalName device)
  /\ forall u, In u (Services f) ->
               In (bluetooth.NewUUID u) (bluetooth.ServiceUUIDs device).

(** The [Device] pushed for an advertisement. *)
Definition snapshot (device : bluetooth.ScanResult) : Device :=
  {| Device_PeripheralId := bluetooth.Address_String (bluetooth.Address_ device);
     Device_Name := bluetooth.LocalName device;
     Device_RSSI := bluetooth.RSSI_ device |}.

(** Two ids, two advertisements and two filters. *)
Definition nus : uuid.UUID := 0x6e400001b5a3f393e0a9e50e24dcca9e%N.
Definition nus_tx : uuid.UUID := 0x6e400002b5a3f393e0a9e50e24dcca9e%N.

Definition advert_foo : bluetooth.ScanResult :=
  {| bluetooth.Address_ := bluetooth.Address_Set "AA:BB:CC:DD:EE:FF";
     bluetooth.RSSI_ := -60;
     bluetooth.LocalName := "Foo";
     bluetooth.ServiceUUIDs := [bluetooth.NewUUID nus] |}.

Definition advert_anonymous : bluetooth.ScanResult :=
  {| bluetooth.Address_ := bluetooth.Address_Set "11:22:33:44:55:66";
     bluetooth.RSSI_ := -70;
     bluetooth.LocalName := "";
     bluetooth.ServiceUUIDs := [bluetooth.NewUUID nus] |}.

Definition filter_foo : DiscoverFilter :=
  {| Name := "Foo"; NamePrefix := ""; Services := [nus] |}.

Definition filter_any : DiscoverFilter :=
  {| Name := ""; NamePrefix := ""; Services := [] |}.

(** The calls to the provider that the dispatcher makes itself; the scan
    is started by a goroutine. *)
Definition provider_call {P : Provider} (ev : Event P) : bool :=
  match ev with
  | WsWrite _ | CallScan _ => false
  | _ => true
  end.

(** [c] takes every state to one that [R] relates to it, however [c]
    ends. *)
Definition preserves {P : Provider} (R : State P -> State P -> Prop)
    {A : Type} (c : M P A) : Prop :=
  forall st, R st (snd (c st)).

(** The events a request [msg] may cause: any call to the provider, and
    results and errors that carry the id of [msg]. *)
Definition reply_to {P : Provider} (msg : Msg) (ev : Event P) : Prop :=
  match ev with
  | WsWrite (FrameResult r) => Result_Id r = Id msg
  | WsWrite (FrameError e) => Error_Id e = Id msg
  | WsWrite (FrameMsg _) => False
  | _ => True
  end.

(** The trace has grown, by events that are all [ok]. *)
Definition extends {P : Provider} (ok : Event P -> Prop) (st st' : State P)
    : Prop :=
  exists evs, trace st' = (trace st ++ evs)%list /\ Forall ok evs.

(** Requests as the read loop delivers them. *)
Definition mkMsg (id : Z) (method : string) (params : RawMessage) : Msg :=
  {| Id := id; Jsonrpc := "2.0"; Method := method; Params := params |}.

Definition characteristic_params : list (string * json.value) :=
  [("serviceId", json.Str (uuid.String nus));
   ("characteristicId", json.Str (uuid.String nus_tx))].

Definition connect_request : Msg :=
  mkMsg 1 "connect"
    (Some (json.Object [("peripheralId", json.Str "AA:BB:CC:DD:EE:FF")])).

Definition startNotifications_request : Msg :=
  mkMsg 2 "startNotifications" (Some (json.Object characteristic_params)).

Definition stopNotifications_request : Msg :=
  mkMsg 3 "stopNotifications" (Some (json.Object characteristic_params)).

Definition read_request : Msg :=
  mkMsg 4 "read" (Some (json.Object characteristic_params)).

Definition write_request (encoding : string) : Msg :=
  mkMsg 5 "write"
    (Some (json.Object
             (characteristic_params
                ++ [("message", json.Str "Zg==");
                    ("encoding", json.Str encoding);
                    ("withResponse", json.Bool false)]))).

Definition foo_request (params : RawMessage) : Msg := mkMsg 6 "foo" params.

(** The session after a successful [connect]. *)
Definition connected : State Echo.provider :=
  snd (dispatch connect_request Echo.start).

(** The session after [startNotifications] for service [nus] and
    characteristic [nus_tx]. *)
Definition subscribed : State Echo.provider :=
  snd (dispatch startNotifications_request connected).

(** The method table of the dispatcher. *)
Definition known_method (method : string) : bool :=
  existsb (String.eqb method)
    ["getVersion"; "discover"; "connect"; "startNotifications";
     "stopNotifications"; "write"; "read"]%string.



(** A frame that looks like a reply. *)
Definition result_frame : option json.value :=
  Some (json.Object [("id", json.Int 7); ("jsonrpc", json.Str "2.0");
                     ("result", json.Int 1)]).






(** No channel buffers more than its capacity. *)
Definition within_capacity {P : Provider} (st : State P) : Prop :=
  Forall (fun ch => (List.length (buffered ch) <= 10)%nat) (chans st).


Definition keeps_capacity {P : Provider} (st st' : State P) : Prop :=
  within_capacity st -> within_capacity st'.

Definition discover_request : Msg :=
  mkMsg 7 "discover"
    (Some (json.Object
             [("filters",
               json.Array [json.Object [("name", json.Str "Foo")]])])).

(** A session whose scan has reported two devices that are not pushed
    yet. *)
Definition scanning_session : State Echo.provider :=
  snd (run [Request discover_request; Advertise advert_foo;
            Advertise advert_anonymous; Advertise advert_foo]
         Echo.start).

(** What may happen after the connect: advertisements, forwarding, a
    read. *)
Definition after_connect : list Action :=
  [Advertise advert_foo; Forward 0%nat; Advertise advert_foo;
   Forward 0%nat; Forward 0%nat; Request read_request].

(** ** Further notions: the ids of pushes *)






(** ** Further notions: rejected parameters *)

(** The error, if any, of decoding the parameters of a request the way its
    method asks. [getVersion] and unknown methods decode nothing. *)
Definition params_error (msg : Msg) : option string :=
  let error_of (A : Type) (r : res A) :=
    match r with
    | OK _ => None
    | Fail err => Some err
    end in
  if String.eqb (Method msg) "discover"
  then error_of _ (DiscoverParamsFromJson (Params msg))
  else if String.eqb (Method msg) "connect"
  then error_of _ (ConnectParamsFromJson (Params msg))
  else if String.eqb (Method msg) "startNotifications"
  then error_of _ (NotificationsParamsFromJson (Params msg))
  else if String.eqb (Method msg) "write"
  then error_of _ (UpdateParamsFromJson (Params msg))
  else if String.eqb (Method msg) "read"
  then error_of _ (ReadParamsFromJson (Params msg))
  else if String.eqb (Method msg) "stopNotifications"
  then error_of _ (NotificationsParamsFromJson (Params msg))
  else None.

(** A [connect] without parameters, and a [read] whose service id is not a
    UUID. *)
Definition connect_without_params : Msg := mkMsg 8 "connect" None.

Definition read_bad_uuid : Msg :=
  mkMsg 9 "read"
    (Some (json.Object [("serviceId", json.Str "not-a-uuid");
                        ("characteristicId", json.Str (uuid.String nus_tx))])).

(** ** Further notions: filters *)

(** Two filters that differ at most in their [namePrefix]. *)
Definition same_but_prefix (f g : DiscoverFilter) : Prop :=
  Name f = Name g /\ Services f = Services g.

Definition filter_prefix_bar : DiscoverFilter :=
  {| Name := "Foo"; NamePrefix := "Bar"; Services := [nus] |}.

Definition filter_wrong_case : DiscoverFilter :=
  {| Name := "foo"; NamePrefix := ""; Services := [] |}.

(** Parameters that are present and are a JSON object or null. *)
Definition is_object_or_null (params : RawMessage) : bool :=
  match params with
  | Some (json.Object _) | Some json.Null => true
  | _ => false
  end.

(** ** Further notions: what the read loop meets *)

(** A frame that [wsRead] returns as a request: it is short enough and
    decodes, into a fresh [Msg], to a message with a method. *)
Definition request_frame (ev : ReadEvent) : Prop :=
  exists n data m,
    ev = ReadFrame n data /\ n < 512
    /\ json.Unmarshal (json.setStruct fieldMsg "labsscratch.Msg") data zeroMsg
       = (m, None)
    /\ Method m <> "".

(** A read that ends the loop with an error: the read itself fails, or the
    frame does not decode. *)
Definition fault (ev : ReadEvent) : Prop :=
  match ev with
  | ReadFail _ => True
  | ReadFrame n data =>
      n < 512
      /\ forall msg,
           snd (json.Unmarshal (json.setStruct fieldMsg "labsscratch.Msg")
                  data msg) <> None
  end.

Definition getVersion_frame : ReadEvent :=
  ReadFrame 40 (Some (json.Object [("id", json.Int 1);
                                   ("method", json.Str "getVersion")])).

(** ** Further notions: discovery *)

(** The push written for a discovered device. *)
Definition didDiscoverPeripheral (id : Z) (device : bluetooth.ScanResult)
    : Frame :=
  FrameMsg
    {| Id := id; Jsonrpc := "2.0"; Method := "didDiscoverPeripheral";
       Params :=
         Some (json.Object
                 [("peripheralId",
                   json.Str (bluetooth.Address_String
                               (bluetooth.Address_ device)));
                  ("name", json.Str (bluetooth.LocalName device));
                  ("rssi", json.Int (bluetooth.RSSI_ device))]) |}.

Definition empty_chan : Chan := {| buffered := []; waiting := None |}.


(** ** A provider with knobs

    Like [Echo], without a state of its own: which addresses can be
    reached, which services the peripheral has (a discovery returns those
    of the asked services it has, without error), whether enabling
    notifications fails, the value a read finds and, if set, the count the
    read reports instead of the number of bytes copied. *)

Module Flaky.

Record knobs : Type := {
  reachable : string -> bool;
  services : list bluetooth.UUID;
  subscribe_error : option string;
  value : list byte;
  reported : option Z
}.

Definition provider (k : knobs) : Provider :=
  {| World := unit;
     BtDevice := bluetooth.Address;
     DeviceService := bluetooth.UUID;
     DeviceCharacteristic := bluetooth.UUID;
     Connect := fun mac _ w =>
       if reachable k (bluetooth.MAC mac)
       then ((Some mac, None), w)
       else ((None, Some "connection refused"), w);
     DiscoverServices := fun _ uuids w =>
       (OK (filter (fun u => existsb (N.eqb u) (services k)) uuids), w);
     DiscoverCharacteristics := fun _ uuids w => (OK uuids, w);
     EnableNotifications := fun _ _ w => (subscribe_error k, w);
     WriteWithoutResponse := fun _ buf w =>
       (OK (Z.of_nat (List.length buf)), w);
     Read := fun _ len w =>
       (OK (match reported k with
            | Some n => n
            | None => Z.min (Z.of_nat (List.length (value k))) len
            end,
            Echo.fill len (value k)), w) |}.

Definition start (k : knobs) : State (provider k) :=
  @Build_State (provider k) tt 0 None None [] [].

(** Only one address answers. *)
Definition picky : knobs :=
  {| reachable := String.eqb "AA:BB:CC:DD:EE:FF"; services := [nus];
     subscribe_error := None; value := ["f"%byte]; reported := None |}.

(** No service is found. *)
Definition bare : knobs :=
  {| reachable := fun _ => true; services := [];
     subscribe_error := None; value := []; reported := None |}.

(** Notifications cannot be enabled. *)
Definition mute : knobs :=
  {| reachable := fun _ => true; services := [nus];
     subscribe_error := Some "notifications not supported";
     value := ["f"%byte]; reported := None |}.

(** A read reports the 600 bytes of the value, not the 512 it copied. *)
Definition long : knobs :=
  {| reachable := fun _ => true; services := [nus];
     subscribe_error := None; value := repeat "f"%byte 600;
     reported := Some 600 |}.

End Flaky.

(** ** Further notions: requests on a device *)

Definition connect_elsewhere : Msg :=
  mkMsg 11 "connect"
    (Some (json.Object [("peripheralId", json.Str "11:22:33:44:55:66")])).

(** The service and the characteristic a request names, when its
    parameters decode and, for a [write], its encoding is base64. *)
Definition requested (msg : Msg) : option (uuid.UUID * uuid.UUID) :=
  if String.eqb (Method msg) "startNotifications"
     || String.eqb (Method msg) "stopNotifications"
  then match NotificationsParamsFromJson (Params msg) with
       | OK p => Some (Notifications_ServiceId p,
                       Notifications_CharacteristicId p)
       | Fail _ => None
       end
  else if String.eqb (Method msg) "write"
  then match UpdateParamsFromJson (Params msg) with
       | OK p => if String.eqb (Encoding p) "base64"
                 then Some (ServiceId p, CharacteristicId p)
                 else None
       | Fail _ => None
       end
  else if String.eqb (Method msg) "read"
  then match ReadParamsFromJson (Params msg) with
       | OK p => Some (Read_ServiceId p, Read_CharacteristicId p)
       | Fail _ => None
       end
  else None.

Definition read_and_subscribe_request : Msg :=
  mkMsg 12 "read"
    (Some (json.Object
             (characteristic_params
                ++ [("startNotifications", json.Bool true)]))).

Definition write_request_with (message : string) (withResponse : bool) : Msg :=
  mkMsg 5 "write"
    (Some (json.Object
             (characteristic_params
                ++ [("message", json.Str message);
                    ("encoding", json.Str "base64");
                    ("withResponse", json.Bool withResponse)]))).

(** * Properties *)

Example base64_encode_f : base64.EncodeToString ["f"%byte] = "Zg==".
Proof. reflexivity. Qed.

Example base64_encode_foobar :
  base64.EncodeToString
    ["f"%byte; "o"%byte; "o"%byte; "b"%byte; "a"%byte; "r"%byte] = "Zm9vYmFy".
Proof. reflexivity. Qed.

Example base64_decode_fo : base64.DecodeString "Zm8=" = OK ["f"%byte; "o"%byte].
Proof. reflexivity. Qed.

Example base64_decode_bad : base64.DecodeString "Zg=" = Fail "illegal base64 data".
Proof. reflexivity. Qed.

Example uuid_roundtrip :
  uuid.ParseBytes (uuid.String 0x6e400001b5a3f393e0a9e50e24dcca9e%N)
  = OK 0x6e400001b5a3f393e0a9e50e24dcca9e%N
  /\ uuid.String 0x6e400001b5a3f393e0a9e50e24dcca9e%N
     = "6e400001-b5a3-f393-e0a9-e50e24dcca9e".
Proof. split; reflexivity. Qed.

(** ** The base64 model decodes what it encodes *)

Module base64_facts.
Import base64.
Local Open Scope N_scope.

Lemma lor_shiftl_low hi lo k :
  lo < 2 ^ k -> N.lor (N.shiftl hi k) lo = hi * 2 ^ k + lo.
Proof.
  intro Hlo.
  assert (Hdisj : N.land (N.shiftl hi k) lo = 0).
  { apply N.bits_inj. intro n. rewrite N.land_spec, N.bits_0.
    destruct (N.ltb_spec n k) as [Hn|Hn].
    - rewrite N.shiftl_spec_low by assumption. reflexivity.
    - rewrite <- (N.mod_small lo (2 ^ k)) by assumption.
      rewrite N.mod_pow2_bits_high by assumption. apply andb_false_r. }
  rewrite <- N.lxor_lor by assumption.
  rewrite <- N.add_nocarry_lxor by assumption.
  now rewrite N.shiftl_mul_pow2.
Qed.

Lemma land_63 n : N.land n 63 = n mod 64.
Proof. exact (N.land_ones n 6). Qed.

Lemma land_255 n : N.land n 255 = n mod 256.
Proof. exact (N.land_ones n 8). Qed.

Ltac arith :=
  repeat rewrite N.shiftr_div_pow2; repeat rewrite N.shiftl_mul_pow2;
  repeat rewrite land_63; repeat rewrite land_255;
  change (2 ^ 18) with 262144; change (2 ^ 16) with 65536;
  change (2 ^ 12) with 4096; change (2 ^ 8) with 256; change (2 ^ 6) with 64.

Ltac euclid := zify; Z.to_euclidean_division_equations; lia.

Lemma sextets_checked :
  forallb (fun n =>
             match decodeMap (encode n) with
             | Some m => N.eqb m n
             | None => false
             end && negb (is_newline (encode n)))
    sextets = true.
Proof. vm_compute. reflexivity. Qed.

Lemma encode_facts val :
  decodeMap (encode val) = Some (val mod 64)
  /\ is_newline (encode val) = false.
Proof.
  assert (Hin : In (val mod 64) sextets).
  { unfold sextets. apply in_map_iff. exists (N.to_nat (val mod 64)).
    split; [apply N2Nat.id|]. apply in_seq.
    assert (val mod 64 < 64) by (apply N.mod_lt; discriminate).
    generalize dependent (val mod 64). intros. lia. }
  pose proof sextets_checked as H. rewrite forallb_forall in H.
  specialize (H _ Hin).
  assert (Henc : encode (val mod 64) = encode val).
  { unfold encode. rewrite !land_63. rewrite N.Div0.mod_mod. reflexivity. }
  rewrite Henc in H. apply andb_true_iff in H. destruct H as [H1 H2].
  destruct (decodeMap (encode val)) as [m|]; [|discriminate].
  apply N.eqb_eq in H1. subst. split; [reflexivity|].
  now apply negb_true_iff in H2.
Qed.

Lemma byte_of_to_N (b : byte) n : n mod 256 = Byte.to_N b -> byte_of n = b.
Proof.
  intro H. unfold byte_of. rewrite land_255, H, Byte.of_to_N. reflexivity.
Qed.

Lemma byte_lt (b : byte) : Byte.to_N b < 256.
Proof. pose proof (Byte.to_N_bounded b). lia. Qed.

Lemma list_ind3 (A : Type) (Q : list A -> Prop) :
  Q [] -> (forall a, Q [a]) -> (forall a b, Q [a; b]) ->
  (forall a b c l, Q l -> Q (a :: b :: c :: l)) ->
  forall l, Q l.
Proof.
  intros H0 H1 H2 H3.
  fix IH 1. intros [|a [|b [|c l]]];
    [exact H0 | apply H1 | apply H2 | apply H3; apply IH].
Qed.

Lemma lor_add x lo k :
  x mod 2 ^ k = 0 -> lo < 2 ^ k -> N.lor x lo = x + lo.
Proof.
  intros Hx Hlo.
  assert (Hk : 2 ^ k <> 0) by (apply N.pow_nonzero; discriminate).
  rewrite (N.div_mod x (2 ^ k) Hk) at 1 2. rewrite Hx, N.add_0_r.
  rewrite N.mul_comm, <- N.shiftl_mul_pow2.
  rewrite lor_shiftl_low by assumption.
  rewrite N.shiftl_mul_pow2. reflexivity.
Qed.

Lemma pack_value a b c :
  pack a b c = Byte.to_N a * 65536 + (Byte.to_N b * 256 + Byte.to_N c).
Proof.
  unfold pack. pose proof (byte_lt b). pose proof (byte_lt c).
  rewrite (@lor_shiftl_low (Byte.to_N b) (Byte.to_N c) 8) by assumption.
  rewrite lor_shiftl_low
    by (change (2 ^ 16) with 65536; change (2 ^ 8) with 256; lia).
  reflexivity.
Qed.

(** Four sextets put together again. *)
Lemma join_sextets v :
  v < 16777216 ->
  N.lor (N.lor (N.shiftl (N.shiftr v 18 mod 64) 18)
               (N.shiftl (N.shiftr v 12 mod 64) 12))
        (N.lor (N.shiftl (N.shiftr v 6 mod 64) 6) (v mod 64))
  = v.
Proof.
  intro Hv. arith.
  rewrite (@lor_add (v / 64 mod 64 * 64) (v mod 64) 6) by euclid.
  rewrite (@lor_add (v / 262144 mod 64 * 262144) (v / 4096 mod 64 * 4096) 18)
    by euclid.
  rewrite (@lor_add _ _ 12) by euclid.
  euclid.
Qed.

Lemma decodeQuanta_full v1 v2 v3 v4 rest out :
  decodeQuanta rest = Some out ->
  decodeQuanta (encode v1 :: encode v2 :: encode v3 :: encode v4 :: rest)
  = let val := N.lor (N.lor (N.shiftl (v1 mod 64) 18) (N.shiftl (v2 mod 64) 12))
                     (N.lor (N.shiftl (v3 mod 64) 6) (v4 mod 64)) in
    Some (byte_of (N.shiftr val 16) :: byte_of (N.shiftr val 8)
            :: byte_of val :: out).
Proof.
  intro Hrest. cbn [decodeQuanta].
  rewrite !(proj1 (encode_facts _)), Hrest. reflexivity.
Qed.

Lemma decodeQuanta_pad1 v1 v2 v3 :
  decodeQuanta [encode v1; encode v2; encode v3; padChar]
  = let val := N.lor (N.lor (N.shiftl (v1 mod 64) 18) (N.shiftl (v2 mod 64) 12))
                     (N.shiftl (v3 mod 64) 6) in
    Some [byte_of (N.shiftr val 16); byte_of (N.shiftr val 8)].
Proof.
  cbn [decodeQuanta]. rewrite !(proj1 (encode_facts _)). reflexivity.
Qed.

Lemma decodeQuanta_pad2 v1 v2 :
  decodeQuanta [encode v1; encode v2; padChar; padChar]
  = let hi := N.lor (N.shiftl (v1 mod 64) 18) (N.shiftl (v2 mod 64) 12) in
    Some [byte_of (N.shiftr hi 16)].
Proof.
  cbn [decodeQuanta]. rewrite !(proj1 (encode_facts _)). reflexivity.
Qed.

Lemma decodeQuanta_EncodeToString src :
  decodeQuanta (list_ascii_of_string (EncodeToString src)) = Some src.
Proof.
  induction src as [|a|a b|a b c rest IH] using list_ind3.
  - reflexivity.
  - cbn [EncodeToString list_ascii_of_string]. rewrite decodeQuanta_pad2.
    cbv zeta. do 2 f_equal. apply byte_of_to_N.
    pose proof (byte_lt a). arith.
    rewrite (@lor_add _ _ 18) by euclid. euclid.
  - cbn [EncodeToString list_ascii_of_string]. rewrite decodeQuanta_pad1.
    cbv zeta. pose proof (byte_lt a). pose proof (byte_lt b).
    assert (Hval : N.lor (N.shiftl (Byte.to_N a) 16) (N.shiftl (Byte.to_N b) 8)
                   = Byte.to_N a * 65536 + Byte.to_N b * 256).
    { arith. rewrite (@lor_add _ _ 16) by euclid. reflexivity. }
    rewrite Hval.
    do 2 f_equal; [|f_equal]; apply byte_of_to_N; arith;
      rewrite (@lor_add (_ * 262144) (_ * 4096) 18) by euclid;
      rewrite (@lor_add _ _ 12) by euclid; euclid.
  - cbn [EncodeToString list_ascii_of_string].
    rewrite decodeQuanta_full with (out := rest) by exact IH. cbv zeta.
    assert (Hlt : pack a b c < 16777216).
    { rewrite pack_value. pose proof (byte_lt a). pose proof (byte_lt b).
      pose proof (byte_lt c). lia. }
    rewrite (join_sextets Hlt). rewrite pack_value.
    pose proof (byte_lt a). pose proof (byte_lt b). pose proof (byte_lt c).
    do 2 f_equal; [|f_equal; [|f_equal]]; apply byte_of_to_N; arith; euclid.
Qed.

Lemma EncodeToString_no_newline src :
  filter (fun c => negb (is_newline c))
    (list_ascii_of_string (EncodeToString src))
  = list_ascii_of_string (EncodeToString src).
Proof.
  induction src as [|a|a b|a b c rest IH] using list_ind3;
    cbn [EncodeToString list_ascii_of_string filter];
    repeat rewrite (proj2 (encode_facts _)); cbn [negb];
    try rewrite IH; reflexivity.
Qed.

(** Decoding undoes encoding. *)
Lemma DecodeString_EncodeToString src :
  DecodeString (EncodeToString src) = OK src.
Proof.
  unfold DecodeString.
  now rewrite EncodeToString_no_newline, decodeQuanta_EncodeToString.
Qed.

End base64_facts.

(** The end-to-end exchange of the protocol description: connect, write one
    byte, read it back. *)
Example end_to_end :
  let c := [request 1 "connect" [("peripheralId", json.Str "AA:BB:CC:DD:EE:FF")];
            request 2 "write" [("serviceId", json.Str service_text);
                               ("characteristicId", json.Str characteristic_text);
                               ("message", json.Str "Zg==");
                               ("encoding", json.Str "base64");
                               ("withResponse", json.Bool false)];
            request 3 "read" [("serviceId", json.Str service_text);
                              ("characteristicId", json.Str characteristic_text)]] in
  let '(o, st) := GetHandler c Echo.start in
  o = Return tt
  /\ written (trace st)
     = [FrameResult (Respond {| Id := 1; Jsonrpc := ""; Method := ""; Params := None |} AnyNil);
        FrameResult {| Result_Id := 2; Result_Jsonrpc := "2.0";
                       Result_Result := AnyInt 1; Result_Encoding := "" |};
        FrameResult {| Result_Id := 3; Result_Jsonrpc := "2.0";
                       Result_Result := AnyString "Zg==";
                       Result_Encoding := "base64" |}].
Proof. vm_compute. split; reflexivity. Qed.

(** ** The read loop, unfolded once *)

Lemma WsReadLoop_from_eq c out :
  WsReadLoop_from c out
  = match wsRead c with
    | (Panic reason, _) => Panic reason
    | (Blocked, _) => Blocked
    | (Return (_, Some err), _) => Return out
    | (Return (msg, None), c') =>
        if (List.length out <? 100)%nat
        then WsReadLoop_from c' (out ++ [msg])
        else Blocked
    end.
Proof.
  funelim (WsReadLoop_from c out);
    match goal with e : wsRead _ = _ |- _ => rewrite e end;
    try reflexivity.
  destruct (is_EOF err); reflexivity.
Qed.

(** ** Discovery filters *)

Lemma length_zero (s : string) : (String.length s =? 0)%nat = true <-> s = "".
Proof.
  destruct s; simpl; split; intro H; try reflexivity; discriminate.
Qed.

Lemma HasServiceUUID_In device u :
  bluetooth.HasServiceUUID device u = true
  <-> In u (bluetooth.ServiceUUIDs device).
Proof.
  unfold bluetooth.HasServiceUUID. rewrite existsb_exists. split.
  - intros [x [Hin Heq]]. apply N.eqb_eq in Heq. now subst.
  - intro Hin. exists u. split; [assumption | apply N.eqb_refl].
Qed.

Lemma hasServices_all device services :
  hasServices device services = true
  <-> forall u, In u services ->
                In (bluetooth.NewUUID u) (bluetooth.ServiceUUIDs device).
Proof.
  induction services as [|s rest IH]; simpl.
  - split; [intros _ u [] | reflexivity].
  - destruct (bluetooth.HasServiceUUID device (bluetooth.NewUUID s)) eqn:Hs;
      simpl.
    + rewrite IH. apply HasServiceUUID_In in Hs. split.
      * intros H u [<-|Hu]; auto.
      * intros H u Hu. apply H. now right.
    + split; [discriminate|]. intro H.
      assert (Hin : In (bluetooth.NewUUID s) (bluetooth.ServiceUUIDs device))
        by (apply H; now left).
      apply HasServiceUUID_In in Hin. congruence.
Qed.

(** The test [matchDevice] makes on one filter. *)
Lemma filter_test device f :
  (negb (String.length (Name f) =? 0)%nat
   && negb (String.eqb (Name f) (bluetooth.LocalName device)) = false
   /\ hasServices device (Services f) = true)
  <-> filterMatches device f.
Proof.
  unfold filterMatches. rewrite <- hasServices_all.
  destruct (String.length (Name f) =? 0)%nat eqn:Hlen; simpl.
  - apply length_zero in Hlen. intuition.
  - assert (Hne : Name f <> "")
      by (intro H; apply length_zero in H; congruence).
    destruct (String.eqb_spec (Name f) (bluetooth.LocalName device)); simpl;
      intuition congruence.
Qed.

Lemma matchDevice_cons device f rest :
  matchDevice device (f :: rest) = true
  <-> filterMatches device f /\ matchDevice device rest = true.
Proof.
  rewrite <- filter_test. simpl.
  destruct (negb (String.length (Name f) =? 0)%nat
            && negb (String.eqb (Name f) (bluetooth.LocalName device))).
  - intuition discriminate.
  - destruct (hasServices device (Services f)); simpl; intuition discriminate.
Qed.

Lemma matchDevice_Forall device filters :
  matchDevice device filters = true <-> Forall (filterMatches device) filters.
Proof.
  induction filters as [|f rest IH].
  - simpl. split; [constructor | reflexivity].
  - rewrite matchDevice_cons, IH. split.
    + intros [Hf Hrest]. now constructor.
    + intro H. inversion H; subst. now split.
Qed.

Lemma scanCallback_named filter device :
  bluetooth.LocalName device <> "" ->
  scanCallback filter device
  = if matchDevice device filter then Some (snapshot device) else None.
Proof.
  intro Hname. unfold scanCallback.
  destruct (String.length (bluetooth.LocalName device) =? 0)%nat eqn:Hlen.
  - apply length_zero in Hlen. contradiction.
  - destruct (matchDevice device filter); reflexivity.
Qed.


Lemma filter_foo_matches : filterMatches advert_foo filter_foo.
Proof.
  split.
  - right. reflexivity.
  - intros u [<-|[]]. left. reflexivity.
Qed.


(** C10. For an advertisement with a local name, [matchDevice] holds exactly
    when every filter of the list matches it; it holds for the empty list,
    so a scan without filters sends every such advertisement on. *)
Theorem matchDevice_conjunction (device : bluetooth.ScanResult)
    (filters : list DiscoverFilter) :
  bluetooth.LocalName device <> "" ->
  (matchDevice device filters = true
   <-> Forall (filterMatches device) filters)
  /\ (scanCallback filters device = Some (snapshot device)
      <-> Forall (filterMatches device) filters)
  /\ matchDevice device [] = true
  /\ scanCallback [] device = Some (snapshot device).
Proof.
  intro Hname. split; [apply matchDevice_Forall|]. split.
  - rewrite scanCallback_named by assumption.
    rewrite <- matchDevice_Forall.
    destruct (matchDevice device filters); split; intro;
      try reflexivity; discriminate.
  - split; [reflexivity|]. rewrite scanCallback_named by assumption.
    reflexivity.
Qed.

Lemma matchDevice_conjunction_witness :
  bluetooth.LocalName advert_foo <> ""
  /\ matchDevice advert_foo [filter_any; filter_foo] = true
  /\ scanCallback [] advert_foo = Some (snapshot advert_foo).
Proof.
  assert (Hname : bluetooth.LocalName advert_foo <> "") by discriminate.
  destruct (matchDevice_conjunction advert_foo [filter_any; filter_foo] Hname)
    as [Hall [_ [_ Hnone]]].
  split; [exact Hname|]. split; [|exact Hnone].
  apply Hall. constructor.
  - split; [left; reflexivity | intros u []].
  - constructor; [exact filter_foo_matches | constructor].
Defined.

(** ** What a piece of dispatcher code can do to the state

    [R] relates the state before to the state after; it is kept by the
    primitive steps provided the events they log are [ok]. *)

Section Preservation.

Context (P : Provider).
Variable R : State P -> State P -> Prop.
Variable ok : Event P -> Prop.

Hypothesis R_refl : forall st, R st st.
Hypothesis R_trans : forall st1 st2 st3, R st1 st2 -> R st2 st3 -> R st1 st3.
Hypothesis R_emit : forall ev st, ok ev -> R st (snd (emit ev st)).
Hypothesis R_call :
  forall (A : Type) ev (op : World P -> A * World P) st,
    ok ev -> R st (snd (call ev op st)).
Hypothesis R_set_DEVICE : forall d st, R st (snd (set_DEVICE d st)).
Hypothesis R_StopScan : forall st, R st (snd (@StopScan P st)).

Lemma preserves_ret {A : Type} (a : A) : preserves R (ret a).
Proof. intro st. apply R_refl. Qed.

Lemma preserves_panic {A : Type} reason : preserves R (@panic P A reason).
Proof. intro st. apply R_refl. Qed.

Lemma preserves_blocked {A : Type} :
  preserves R (fun st : State P => (@Blocked A, st)).
Proof. intro st. apply R_refl. Qed.

Lemma preserves_bind {A B : Type} (c : M P A) (k : A -> M P B) :
  preserves R c -> (forall a, preserves R (k a)) -> preserves R (bind c k).
Proof.
  intros Hc Hk st. unfold bind. specialize (Hc st).
  destruct (c st) as [[a|reason|] st']; simpl in *; try assumption.
  eapply R_trans; [eassumption | apply Hk].
Qed.

Lemma preserves_emit ev : ok ev -> preserves R (emit ev).
Proof. intros H st. now apply R_emit. Qed.

Lemma preserves_call {A : Type} ev (op : World P -> A * World P) :
  ok ev -> preserves R (call ev op).
Proof. intros H st. now apply R_call. Qed.

Lemma preserves_deref : preserves R (@deref_DEVICE P).
Proof.
  intro st. unfold deref_DEVICE. destruct (DEVICE st); apply R_refl.
Qed.

Lemma preserves_WsSend f : ok (WsWrite f) -> preserves R (WsSend f).
Proof.
  intro H. unfold WsSend. apply preserves_bind.
  - now apply preserves_emit.
  - intro. apply preserves_ret.
Qed.

Hypothesis ok_provider_call : forall ev, provider_call ev = true -> ok ev.

Ltac preserves_step :=
  match goal with
  | |- preserves _ (bind _ _) => apply preserves_bind; [|intro]
  | |- preserves _ (ret _) => apply preserves_ret
  | |- preserves _ (panic _) => apply preserves_panic
  | |- preserves _ (fun st => (Blocked, st)) => apply preserves_blocked
  | |- preserves _ (call _ _) =>
      apply preserves_call; apply ok_provider_call; reflexivity
  | |- preserves _ (@deref_DEVICE _) => apply preserves_deref
  | |- preserves _ (@StopScan _) => exact R_StopScan
  | |- preserves _ (set_DEVICE _) => intro; apply R_set_DEVICE
  | |- preserves _ (match ?x with _ => _ end) => destruct x
  end.

Lemma preserves_getDeviceCharacteristic device s c :
  preserves R (getDeviceCharacteristic device s c).
Proof. unfold getDeviceCharacteristic. repeat preserves_step. Qed.

(** The replies to one request. *)
Variable msg : Msg.
Hypothesis ok_Respond :
  forall data, ok (WsWrite (FrameResult (Respond msg data))).
Hypothesis ok_RespondBytes :
  forall buf, ok (WsWrite (FrameResult (RespondBytes msg buf))).
Hypothesis ok_Error :
  forall err, ok (WsWrite (FrameError (Msg_Error msg err))).

Lemma preserves_reply data : preserves R (@reply P msg data).
Proof.
  unfold reply. apply preserves_bind; [|intro; apply preserves_ret].
  apply preserves_WsSend, ok_Respond.
Qed.

Lemma preserves_reply_error err : preserves R (@reply_error P msg err).
Proof.
  unfold reply_error. apply preserves_bind; [|intro; apply preserves_ret].
  apply preserves_WsSend, ok_Error.
Qed.

Ltac preserves_case :=
  repeat first
    [ apply preserves_reply
    | apply preserves_reply_error
    | apply preserves_getDeviceCharacteristic
    | apply preserves_WsSend; apply ok_RespondBytes
    | preserves_step ].

Lemma preserves_getVersion : preserves R (@case_getVersion P msg).
Proof. unfold case_getVersion. preserves_case. Qed.

Lemma preserves_connect : preserves R (@case_connect P msg).
Proof. unfold case_connect. preserves_case. Qed.

Lemma preserves_startNotifications :
  preserves R (@case_startNotifications P msg).
Proof. unfold case_startNotifications. preserves_case. Qed.

Lemma preserves_write : preserves R (@case_write P msg).
Proof. unfold case_write. preserves_case. Qed.

Lemma preserves_read : preserves R (@case_read P msg).
Proof. unfold case_read. preserves_case. Qed.

Lemma preserves_stopNotifications :
  preserves R (@case_stopNotifications P msg).
Proof. unfold case_stopNotifications. preserves_case. Qed.

Lemma preserves_default : preserves R (@case_default P msg).
Proof. unfold case_default. preserves_case. Qed.

Lemma preserves_discover :
  (forall filter, preserves R (@startAsyncScan P filter)) ->
  preserves R (@case_discover P msg).
Proof.
  intro Hscan. unfold case_discover.
  destruct (DiscoverParamsFromJson (Params msg)).
  - apply preserves_bind; [apply Hscan | intro; apply preserves_reply].
  - apply preserves_reply_error.
Qed.

Lemma preserves_dispatch :
  (String.eqb (Method msg) "discover" = true ->
   forall filter, preserves R (@startAsyncScan P filter)) ->
  preserves R (@dispatch P msg).
Proof.
  intro Hscan. unfold dispatch.
  destruct (String.eqb (Method msg) "getVersion");
    [apply preserves_getVersion|].
  destruct (String.eqb (Method msg) "discover");
    [apply preserves_discover; auto|].
  destruct (String.eqb (Method msg) "connect"); [apply preserves_connect|].
  destruct (String.eqb (Method msg) "startNotifications");
    [apply preserves_startNotifications|].
  destruct (String.eqb (Method msg) "write"); [apply preserves_write|].
  destruct (String.eqb (Method msg) "read"); [apply preserves_read|].
  destruct (String.eqb (Method msg) "stopNotifications");
    [apply preserves_stopNotifications|].
  apply preserves_default.
Qed.

End Preservation.

(** ** Reply identifiers *)

Section Extends.

Context (P : Provider).
Variable ok : Event P -> Prop.

Lemma extends_refl st : extends ok st st.
Proof. exists []. split; [now rewrite app_nil_r | constructor]. Qed.

Lemma extends_trans st1 st2 st3 :
  extends ok st1 st2 -> extends ok st2 st3 -> extends ok st1 st3.
Proof.
  intros [e1 [H1 F1]] [e2 [H2 F2]]. exists (e1 ++ e2). split.
  - rewrite H2, H1. now rewrite app_assoc.
  - apply Forall_app. now split.
Qed.

Lemma extends_emit ev st : ok ev -> extends ok st (snd (emit ev st)).
Proof. intro H. exists [ev]. split; [reflexivity | now constructor]. Qed.

Lemma extends_call (A : Type) ev (op : World P -> A * World P) st :
  ok ev -> extends ok st (snd (call ev op st)).
Proof.
  intro H. exists [ev]. unfold call. destruct (op (world st)).
  split; [reflexivity | now constructor].
Qed.

Lemma extends_set_DEVICE d st : extends ok st (snd (set_DEVICE d st)).
Proof. exists []. split; [simpl; now rewrite app_nil_r | constructor]. Qed.

Lemma extends_StopScan st :
  ok CallStopScan -> extends ok st (snd (@StopScan P st)).
Proof.
  intro H. exists [CallStopScan]. unfold StopScan, bind, emit, get. simpl.
  destruct (scanning st); simpl; split; try reflexivity; now constructor.
Qed.

Lemma extends_startAsyncScan filter st :
  ok CallStopScan -> ok (CallScan filter) ->
  extends ok st (snd (@startAsyncScan P filter st)).
Proof.
  intros H1 H2. exists [CallStopScan; CallScan filter].
  unfold startAsyncScan, StopScan, bind, emit, get. simpl.
  destruct (scanning st); simpl; rewrite <- app_assoc;
    (split; [reflexivity | repeat constructor; assumption]).
Qed.

End Extends.

(** C7. A reply built from a request carries the request's id, whichever
    of [Respond], [RespondBytes] or [Error] built it; [RespondBytes] marks
    its result as base64 and stores the base64 text of the bytes. And
    whatever the dispatcher writes while it handles a request is such a
    reply: a result or an error with the id of the request. *)
Theorem reply_carries_request_id (P : Provider) (m : Msg) :
  (forall data, Result_Id (Respond m data) = Id m)
  /\ (forall buf,
        Result_Id (RespondBytes m buf) = Id m
        /\ Result_Encoding (RespondBytes m buf) = "base64"
        /\ Result_Result (RespondBytes m buf)
           = AnyString (base64.EncodeToString buf))
  /\ (forall reason, Error_Id (Msg_Error m reason) = Id m)
  /\ (forall st : State P, extends (reply_to m) st (snd (dispatch m st))).
Proof.
  repeat split.
  apply (@preserves_dispatch P (extends (reply_to m)) (reply_to m)).
  - apply extends_refl.
  - apply extends_trans.
  - intros. now apply extends_emit.
  - intros. now apply extends_call.
  - apply extends_set_DEVICE.
  - intro. now apply extends_StopScan.
  - intros [] H; try discriminate; exact I.
  - reflexivity.
  - reflexivity.
  - reflexivity.
  - intros _ filter st'. now apply extends_startAsyncScan.
Qed.

(** ** Requests that need a device, on a session without one *)

Lemma nil_DEVICE_panics (P : Provider) (st : State P) (A : Type)
    (k : BtDevice P -> M P A) :
  DEVICE st = None ->
  bind (@deref_DEVICE P) k st = (Panic nilPointerDereference, st).
Proof.
  intro H. unfold bind, deref_DEVICE. rewrite H. reflexivity.
Qed.

(** Whatever the provider, the four requests panic on a session whose
    [DEVICE] is nil as soon as their parameters are accepted, and nothing
    is written to the connection. *)
Lemma no_device_panics (P : Provider) (msg : Msg) (st : State P) :
  DEVICE st = None ->
  (Method msg = "startNotifications"
   /\ (exists p, NotificationsParamsFromJson (Params msg) = OK p))
  \/ (Method msg = "stopNotifications"
      /\ (exists p, NotificationsParamsFromJson (Params msg) = OK p))
  \/ (Method msg = "read"
      /\ (exists p, ReadParamsFromJson (Params msg) = OK p))
  \/ (Method msg = "write"
      /\ (exists p, UpdateParamsFromJson (Params msg) = OK p
                    /\ Encoding p = "base64")) ->
  dispatch msg st = (Panic nilPointerDereference, st).
Proof.
  intros Hnil [[Hm [p Hp]]|[[Hm [p Hp]]|[[Hm [p Hp]]|[Hm [p [Hp He]]]]]];
    unfold dispatch; rewrite Hm; simpl.
  - unfold case_startNotifications. rewrite Hp. now apply nil_DEVICE_panics.
  - unfold case_stopNotifications. rewrite Hp. now apply nil_DEVICE_panics.
  - unfold case_read. rewrite Hp. now apply nil_DEVICE_panics.
  - unfold case_write. rewrite Hp, He. simpl. now apply nil_DEVICE_panics.
Qed.

(** C1, as the code has it. On a session that never connected, each of
    [startNotifications], [stopNotifications], [read] and [write] with
    well-formed parameters dereferences the nil [DEVICE]: the handler panics
    and no reply, hence no error about a missing connection, is written. *)
Theorem no_device_requests_panic :
  DEVICE Echo.start = None
  /\ dispatch startNotifications_request Echo.start
     = (Panic nilPointerDereference, Echo.start)
  /\ dispatch stopNotifications_request Echo.start
     = (Panic nilPointerDereference, Echo.start)
  /\ dispatch read_request Echo.start
     = (Panic nilPointerDereference, Echo.start)
  /\ dispatch (write_request "base64") Echo.start
     = (Panic nilPointerDereference, Echo.start)
  /\ written (trace Echo.start) = [].
Proof. repeat split; vm_compute; reflexivity. Qed.

(** ** Notifications *)

(** The closure itself relays what it captured: the push it writes names
    the captured service and characteristic and carries the payload in
    base64. *)
Lemma invoke_pushes (P : Provider) (cb : Closure) (buf : list byte)
    (st : State P) :
  exists id,
    id = wrap64 (MsgID st + 1)
    /\ fst (invoke cb buf st) = Return tt
    /\ trace (snd (invoke cb buf st))
       = trace st
         ++ [WsWrite
               (FrameMsg
                  {| Id := id; Jsonrpc := "2.0";
                     Method := "characteristicDidChange";
                     Params :=
                       Some (json.Object
                               [("serviceId",
                                 json.Str (uuid.String (captured_ServiceId cb)));
                                ("characteristicId",
                                 json.Str
                                   (uuid.String (captured_CharacteristicId cb)));
                                ("message",
                                 json.Str (base64.EncodeToString buf));
                                ("encoding", json.Str "base64");
                                ("withResponse", json.Bool false)]) |})].
Proof.
  eexists. split; [reflexivity|]. split; reflexivity.
Qed.

(** C2, as the code has it. [startNotifications] for service [nus] and
    characteristic [nus_tx] succeeds and registers a callback that captured
    the characteristic id in the place of the service id; a value change
    with payload [f] is then pushed with [serviceId] set to the
    characteristic id. *)
Theorem notification_names_characteristic_as_service :
  nus <> nus_tx
  /\ NotificationsParamsFromJson (Params startNotifications_request)
     = OK {| Notifications_ServiceId := nus;
             Notifications_CharacteristicId := nus_tx |}
  /\ fst (dispatch startNotifications_request connected) = Return tt
  /\ Echo.callbacks (world subscribed)
     = [(bluetooth.NewUUID nus_tx, notificationCallback nus_tx nus_tx)]
  /\ written (trace (snd (invoke (notificationCallback nus_tx nus_tx)
                            ["f"%byte] subscribed)))
     = written (trace subscribed)
       ++ [FrameMsg
             (mkMsg 1 "characteristicDidChange"
                (Some (json.Object
                         [("serviceId", json.Str (uuid.String nus_tx));
                          ("characteristicId", json.Str (uuid.String nus_tx));
                          ("message", json.Str "Zg==");
                          ("encoding", json.Str "base64");
                          ("withResponse", json.Bool false)])))].
Proof.
  split; [discriminate|]. repeat split; vm_compute; reflexivity.
Qed.

(** ** Writes in an encoding other than base64 *)

(** Whatever the provider and the state, such a write ends at the
    [continue] that follows the log line: it returns normally and leaves the
    state, and with it the trace of frames and provider calls, as it was. *)
Lemma write_other_encoding_is_dropped (P : Provider) (msg : Msg)
    (params : UpdateParams) (st : State P) :
  Method msg = "write" ->
  UpdateParamsFromJson (Params msg) = OK params ->
  Encoding params <> "base64" ->
  dispatch msg st = (Return tt, st).
Proof.
  intros Hm Hp He. unfold dispatch. rewrite Hm. simpl.
  unfold case_write. rewrite Hp.
  destruct (String.eqb_spec (Encoding params) "base64"); [contradiction|].
  reflexivity.
Qed.

(** C3, as the code has it. A [write] whose encoding is [hex], sent to a
    connected session, makes no provider call and is not fatal, but no
    error reply is written either: the state after is the state before. *)
Theorem write_hex_gets_no_reply :
  (exists params,
      UpdateParamsFromJson (Params (write_request "hex")) = OK params
      /\ Encoding params = "hex")
  /\ DEVICE connected = Some (bluetooth.Address_Set "AA:BB:CC:DD:EE:FF")
  /\ dispatch (write_request "hex") connected = (Return tt, connected).
Proof.
  split; [eexists; split; vm_compute; reflexivity|].
  split; vm_compute; reflexivity.
Qed.

(** ** Oversize frames *)

Lemma oversize_frame_panics (P : Provider) (n : Z) (data : option json.value)
    (c : Conn) (st : State P) :
  512 <= n ->
  GetHandler (ReadFrame n data :: c) st = (Panic "too big", st).
Proof.
  intro Hn. unfold GetHandler, WsReadLoop.
  rewrite WsReadLoop_from_eq. unfold wsRead. simpl.
  destruct (Z.leb_spec 512 n); [|lia]. reflexivity.
Qed.


(** ** Unknown methods *)

Lemma dispatch_unknown (P : Provider) (msg : Msg) :
  known_method (Method msg) = false ->
  @dispatch P msg = case_default msg.
Proof.
  unfold known_method, dispatch. simpl. intro H.
  repeat (apply orb_false_elim in H; destruct H as [?H H]).
  repeat match goal with
         | Heq : String.eqb _ _ = false |- _ => rewrite Heq; clear Heq
         end.
  reflexivity.
Qed.

(** An unknown method whose parameters are a JSON object or null is
    logged and ignored: nothing is written and the dispatcher goes on. *)
Lemma unknown_method_ignored (P : Provider) (msg : Msg) (st : State P) :
  known_method (Method msg) = false ->
  (exists members, Params msg = Some (json.Object members))
  \/ Params msg = Some json.Null ->
  dispatch msg st = (Return tt, st).
Proof.
  intros Hm Hp. rewrite dispatch_unknown by assumption.
  unfold case_default, DebugParams.
  destruct Hp as [[members Hp]|Hp]; rewrite Hp; reflexivity.
Qed.

(** C5, as the code has it. The request [foo] without a [params] member
    writes no frame, but the session does not go on: [DebugParams], called
    to build the log line, panics on the empty parameters, and the request
    that follows is never handled. So does [foo] with an array. *)
Theorem unknown_method_without_params_panics :
  known_method "foo" = false
  /\ dispatch (foo_request None) connected
     = (Panic json.endOfInput, connected)
  /\ dispatch (foo_request (Some (json.Array []))) connected
     = (Panic (json.typeError (json.Array []) "map[string]interface {}"),
        connected)
  /\ GetHandler [ReadFrame 23 (Some (json.Object [("id", json.Int 6);
                                                  ("method", json.Str "foo")]));
                 ReadFrame 30 (Some (json.Object [("id", json.Int 7);
                                                  ("method", json.Str "getVersion")]))]
       connected
     = (Panic json.endOfInput, connected).
Proof. repeat split; vm_compute; reflexivity. Qed.

(** ** Frames without a method *)









(** The loop's [msg] outlives a skipped frame: the request that follows a
    reply-shaped frame and names no id of its own is delivered with the id
    the skipped frame left behind. *)
Example skipped_frame_leaves_its_id :
  WsReadLoop [ReadFrame 40 result_frame;
              ReadFrame 30 (Some (json.Object
                                    [("method", json.Str "getVersion")]))]
  = Return [mkMsg 7 "getVersion" None].
Proof. vm_compute. reflexivity. Qed.

(** ** Connecting while a scan runs *)



Section Quiet.

Context (P : Provider).














End Quiet.

(** *** No channel ever buffers more than ten devices *)

Lemma Forall_update (A : Type) (Q : A -> Prop) (l : list A) i a :
  Forall Q l -> Q a -> Forall Q (update l i a).
Proof.
  intros Hl Ha. revert i. induction Hl as [|x l Hx Hl IH]; intros [|i]; simpl;
    constructor; auto.
Qed.

Section Capacity.

Context (P : Provider).

Lemma capacity_same_chans (st st' : State P) :
  chans st' = chans st -> keeps_capacity st st'.
Proof. unfold keeps_capacity, within_capacity. now intros ->. Qed.

Lemma capacity_StopScan (st : State P) :
  keeps_capacity st (snd (@StopScan P st)).
Proof.
  apply capacity_same_chans. unfold StopScan, bind, emit, get. simpl.
  destruct (scanning st); reflexivity.
Qed.

Lemma capacity_startAsyncScan filter (st : State P) :
  keeps_capacity st (snd (startAsyncScan filter st)).
Proof.
  intro H. unfold within_capacity in *.
  assert (Hc : chans (snd (startAsyncScan filter st))
               = chans st ++ [{| buffered := []; waiting := None |}]).
  { unfold startAsyncScan, StopScan, bind, emit, get. simpl.
    destruct (scanning st); reflexivity. }
  rewrite Hc. apply Forall_app. split; [assumption|].
  constructor; [simpl; lia | constructor].
Qed.

Lemma capacity_dispatch msg (st : State P) :
  keeps_capacity st (snd (dispatch msg st)).
Proof.
  apply (@preserves_dispatch P keeps_capacity (fun _ => True)); auto.
  - intros st0 H. exact H.
  - unfold keeps_capacity. auto.
  - intros. now apply capacity_same_chans.
  - intros. apply capacity_same_chans. unfold call.
    destruct (op (world st0)). reflexivity.
  - intros. now apply capacity_same_chans.
  - apply capacity_StopScan.
  - intros _ filter st0. apply capacity_startAsyncScan.
Qed.

Lemma capacity_advertise device (st : State P) :
  keeps_capacity st (snd (advertise device st)).
Proof.
  intro H. unfold advertise, bind, get.
  destruct (scanning st) as [task|]; [|exact H].
  destruct (nth_error (chans st) (scan_devices task)) as [ch|] eqn:Hch;
    [|exact H].
  destruct (waiting ch); [exact H|].
  destruct (scanCallback (scan_filter task) device) as [d|]; [|exact H].
  simpl. unfold within_capacity in *. simpl.
  apply Forall_update; [assumption|].
  assert (Hlen : (List.length (buffered ch) <= 10)%nat).
  { apply nth_error_In in Hch. rewrite Forall_forall in H. now apply H. }
  unfold send. destruct (Nat.ltb_spec (List.length (buffered ch)) 10); simpl.
  - rewrite length_app. simpl. lia.
  - assumption.
Qed.

Lemma capacity_forward devices (st : State P) :
  keeps_capacity st (snd (forward devices st)).
Proof.
  intro H. unfold forward, bind, get.
  destruct (nth_error (chans st) devices) as [ch|] eqn:Hch; [|exact H].
  destruct (buffered ch) as [|device rest] eqn:Hbuf; [exact H|].
  simpl. unfold within_capacity in *. simpl.
  apply Forall_update; [assumption|].
  assert (Hlen : (List.length (buffered ch) <= 10)%nat).
  { apply nth_error_In in Hch. rewrite Forall_forall in H. now apply H. }
  rewrite Hbuf in Hlen. simpl in *.
  destruct (waiting ch); [rewrite length_app; simpl|]; lia.
Qed.

Lemma capacity_step a (st : State P) : keeps_capacity st (snd (step a st)).
Proof.
  destruct a; simpl.
  - apply capacity_dispatch.
  - apply capacity_advertise.
  - apply capacity_forward.
  - now apply capacity_same_chans.
Qed.

Lemma capacity_run schedule (st : State P) :
  keeps_capacity st (snd (run schedule st)).
Proof.
  revert st. induction schedule as [|a schedule IH]; intros st H.
  - exact H.
  - unfold run. simpl. unfold bind.
    pose proof (@capacity_step a st H) as Ha.
    destruct (step a st) as [[[]|reason|] st']; simpl in *; try assumption.
    now apply IH.
Qed.


End Capacity.



Example pushes_after_connect :
  written (trace (snd (run after_connect
                         (snd (dispatch connect_request scanning_session)))))
  = [FrameResult (Respond discover_request AnyNil);
     FrameResult (Respond connect_request AnyNil);
     FrameMsg (mkMsg 1 "didDiscoverPeripheral"
                 (Some (json.Object
                          [("peripheralId", json.Str "AA:BB:CC:DD:EE:FF");
                           ("name", json.Str "Foo");
                           ("rssi", json.Int (-60))])));
     FrameMsg (mkMsg 2 "didDiscoverPeripheral"
                 (Some (json.Object
                          [("peripheralId", json.Str "AA:BB:CC:DD:EE:FF");
                           ("name", json.Str "Foo");
                           ("rssi", json.Int (-60))])));
     FrameResult (RespondBytes read_request [])].
Proof. vm_compute. reflexivity. Qed.

(** ** The ids of pushes *)









Section Numbered.

Context (P : Provider).













End Numbered.



(** ** Rejected parameters *)

(** X2. A request whose parameters do not decode (they are absent, are not
    an object, or hold a member of the wrong type or a malformed UUID) is
    answered by exactly one error frame that carries the request's id and
    the decoder's message; the provider is not called, the session state is
    otherwise untouched and the dispatcher goes on. *)
Theorem undecodable_params_get_an_error_reply (P : Provider) (msg : Msg)
    (err : string) (st : State P) :
  params_error msg = Some err ->
  dispatch msg st
  = (Return tt, snd (emit (WsWrite (FrameError (Msg_Error msg err))) st)).
Proof.
  unfold params_error, dispatch. intro H.
  destruct (String.eqb (Method msg) "getVersion") eqn:Hv.
  { apply String.eqb_eq in Hv. rewrite Hv in H. discriminate. }
  destruct (String.eqb (Method msg) "discover").
  { unfold case_discover.
    destruct (DiscoverParamsFromJson (Params msg)); inversion H; reflexivity. }
  destruct (String.eqb (Method msg) "connect").
  { unfold case_connect.
    destruct (ConnectParamsFromJson (Params msg)); inversion H; reflexivity. }
  destruct (String.eqb (Method msg) "startNotifications").
  { unfold case_startNotifications.
    destruct (NotificationsParamsFromJson (Params msg)); inversion H;
      reflexivity. }
  destruct (String.eqb (Method msg) "write").
  { unfold case_write.
    destruct (UpdateParamsFromJson (Params msg)); inversion H; reflexivity. }
  destruct (String.eqb (Method msg) "read").
  { unfold case_read.
    destruct (ReadParamsFromJson (Params msg)); inversion H; reflexivity. }
  destruct (String.eqb (Method msg) "stopNotifications"); [|discriminate].
  unfold case_stopNotifications.
  destruct (NotificationsParamsFromJson (Params msg)); inversion H;
    reflexivity.
Qed.

Lemma undecodable_params_get_an_error_reply_witness :
  params_error connect_without_params = Some json.endOfInput
  /\ params_error read_bad_uuid = Some "invalid UUID length"
  /\ written (trace (snd (dispatch connect_without_params connected)))
     = written (trace connected)
       ++ [FrameError {| Error_Id := 8; Error_Jsonrpc := "2.0";
                         Error_Error := json.endOfInput |}]
  /\ dispatch read_bad_uuid Echo.start
     = (Return tt,
        snd (emit (WsWrite (FrameError
                              (Msg_Error read_bad_uuid "invalid UUID length")))
               Echo.start)).
Proof.
  split; [reflexivity|]. split; [reflexivity|]. split.
  - rewrite (@undecodable_params_get_an_error_reply Echo.provider
               connect_without_params json.endOfInput connected eq_refl).
    reflexivity.
  - apply undecodable_params_get_an_error_reply. reflexivity.
Defined.

(** ** More on filters *)

Lemma matchDevice_app device fs1 fs2 :
  matchDevice device (fs1 ++ fs2)
  = matchDevice device fs1 && matchDevice device fs2.
Proof.
  induction fs1 as [|f fs1 IH]; simpl; [reflexivity|].
  destruct (negb (String.length (Name f) =? 0)%nat
            && negb (String.eqb (Name f) (bluetooth.LocalName device)));
    [reflexivity|].
  destruct (negb (hasServices device (Services f))); [reflexivity|].
  exact IH.
Qed.

(** X3. The [namePrefix] of a filter is never looked at: two filter lists
    that agree on names and services accept the same advertisements, in
    [matchDevice] and in the scan callback. *)
Theorem namePrefix_is_ignored (device : bluetooth.ScanResult)
    (fs gs : list DiscoverFilter) :
  Forall2 same_but_prefix fs gs ->
  matchDevice device fs = matchDevice device gs
  /\ scanCallback fs device = scanCallback gs device.
Proof.
  intro H.
  assert (Hm : matchDevice device fs = matchDevice device gs).
  { induction H as [|f g fs gs [Hn Hs] _ IH]; simpl; [reflexivity|].
    rewrite Hn, Hs, IH. reflexivity. }
  split; [exact Hm|]. unfold scanCallback. rewrite Hm. reflexivity.
Qed.

Lemma namePrefix_is_ignored_witness :
  scanCallback [filter_prefix_bar] advert_foo = Some (snapshot advert_foo).
Proof.
  assert (H : Forall2 same_but_prefix [filter_prefix_bar] [filter_foo]).
  { constructor; [split; reflexivity | constructor]. }
  destruct (namePrefix_is_ignored advert_foo H) as [_ Hcb].
  rewrite Hcb. reflexivity.
Defined.

(** X4. Filters add up: a list of filters accepts an advertisement exactly
    when each part of the list does, so appending filters can only narrow
    what is reported, and the order of the filters does not matter. The
    name test is exact: a filter named [foo] rejects the device [Foo]. *)
Theorem filters_only_narrow (device : bluetooth.ScanResult)
    (fs1 fs2 : list DiscoverFilter) :
  matchDevice device (fs1 ++ fs2)
  = matchDevice device fs1 && matchDevice device fs2
  /\ matchDevice device (fs2 ++ fs1) = matchDevice device (fs1 ++ fs2)
  /\ (matchDevice device (fs1 ++ fs2) = true ->
      matchDevice device fs1 = true)
  /\ matchDevice advert_foo [filter_wrong_case] = false.
Proof.
  rewrite !matchDevice_app. repeat split.
  - apply andb_comm.
  - intro H. apply andb_true_iff in H. tauto.
Qed.

(** ** More on unknown methods *)

(** X5. [DebugParams] returns exactly when the parameters are a JSON object
    or null; absent parameters and parameters of any other kind make it
    panic. So the default case of the dispatcher ignores an unknown request
    in the first case and panics in the second. *)
Theorem DebugParams_returns_iff (P : Provider) (msg : Msg) (st : State P) :
  ((exists out, DebugParams msg = Return out)
   <-> is_object_or_null (Params msg) = true)
  /\ ((exists reason, DebugParams msg = Panic reason)
      <-> is_object_or_null (Params msg) = false)
  /\ (known_method (Method msg) = false ->
      (is_object_or_null (Params msg) = true ->
       dispatch msg st = (Return tt, st))
      /\ (is_object_or_null (Params msg) = false ->
          exists reason, dispatch msg st = (Panic reason, st))).
Proof.
  assert (Hret : is_object_or_null (Params msg) = true ->
                 exists out, DebugParams msg = Return out).
  { unfold DebugParams. destruct (Params msg) as [[]|]; simpl;
      try discriminate; intros _; eexists; reflexivity. }
  assert (Hpanic : is_object_or_null (Params msg) = false ->
                   exists reason, DebugParams msg = Panic reason).
  { unfold DebugParams. destruct (Params msg) as [[]|]; simpl;
      try discriminate; intros _; eexists; reflexivity. }
  split; [|split].
  - split; [|exact Hret]. intros [out Hout].
    destruct (is_object_or_null (Params msg)); [reflexivity|].
    destruct (Hpanic eq_refl) as [reason Hr]. congruence.
  - split; [|exact Hpanic]. intros [reason Hr].
    destruct (is_object_or_null (Params msg)); [|reflexivity].
    destruct (Hret eq_refl) as [out Hout]. congruence.
  - intro Hm. rewrite dispatch_unknown by assumption. unfold case_default.
    split; intro H.
    + destruct (Hret H) as [out ->]. reflexivity.
    + destruct (Hpanic H) as [reason ->]. exists reason. reflexivity.
Qed.

Lemma DebugParams_returns_iff_witness :
  dispatch (foo_request (Some (json.Object [("x", json.Int 1)]))) connected
  = (Return tt, connected)
  /\ exists reason,
       dispatch (foo_request (Some (json.Str "x"))) connected
       = (Panic reason, connected).
Proof.
  split.
  - apply (DebugParams_returns_iff
             (foo_request (Some (json.Object [("x", json.Int 1)])))
             connected); reflexivity.
  - apply (DebugParams_returns_iff (foo_request (Some (json.Str "x")))
             connected); reflexivity.
Defined.

(** ** The capacity of the request channel *)

Lemma WsReadLoop_from_length c out msgs :
  WsReadLoop_from c out = Return msgs ->
  (List.length out <= 100)%nat -> (List.length msgs <= 100)%nat.
Proof.
  funelim (WsReadLoop_from c out); intros Hret Hout.
  - destruct (is_EOF err); inversion Hret; subst; assumption.
  - destruct (Nat.ltb_spec (Datatypes.length out) 100); [|discriminate].
    match goal with IH : forall _, _ -> _ -> _ |- _ => apply IH; auto end.
    rewrite length_app. simpl. lia.
  - discriminate.
  - discriminate.
Qed.

Lemma wsRead_request_frame ev c :
  request_frame ev -> exists m, wsRead (ev :: c) = (Return (m, None), c).
Proof.
  intros [n [data [m [-> [Hn [Hdec Hm]]]]]]. exists m.
  unfold wsRead. simpl. destruct (Z.leb_spec 512 n); [lia|].
  rewrite Hdec.
  destruct (String.length (Method m) =? 0)%nat eqn:Hlen; [|reflexivity].
  apply length_zero in Hlen. contradiction.
Qed.

Lemma WsReadLoop_from_requests c out :
  Forall request_frame c ->
  (List.length out <= 100)%nat ->
  if (List.length out + List.length c <=? 100)%nat
  then exists msgs,
         WsReadLoop_from c out = Return (out ++ msgs)
         /\ List.length msgs = List.length c
  else WsReadLoop_from c out = Blocked.
Proof.
  intro Hc. revert out. induction Hc as [|ev c Hev Hc IH]; intros out Hout.
  - simpl. rewrite Nat.add_0_r.
    destruct (Nat.leb_spec (Datatypes.length out) 100); [|lia].
    exists []. rewrite app_nil_r. split; reflexivity.
  - rewrite WsReadLoop_from_eq.
    destruct (wsRead_request_frame c Hev) as [m ->].
    destruct (Nat.ltb_spec (Datatypes.length out) 100) as [Hlt|Hge].
    + specialize (IH (out ++ [m])). rewrite length_app in IH. simpl in IH.
      assert (Hle : (Datatypes.length out + 1 <= 100)%nat) by lia.
      specialize (IH Hle). simpl Datatypes.length.
      replace (Datatypes.length out + S (Datatypes.length c))%nat
        with (Datatypes.length out + 1 + Datatypes.length c)%nat by lia.
      destruct (Datatypes.length out + 1 + Datatypes.length c <=? 100)%nat;
        [|exact IH].
      destruct IH as [msgs [Hret Hlen]]. exists (m :: msgs).
      rewrite <- app_assoc in Hret. split; [exact Hret|].
      simpl. now rewrite Hlen.
    + simpl Datatypes.length.
      destruct (Nat.leb_spec
                  (Datatypes.length out + S (Datatypes.length c)) 100);
        [lia | reflexivity].
Qed.

(** X6. The read loop fills a channel of capacity 100 before anybody
    receives from it: it never delivers more than 100 requests, a connection
    of up to 100 requests delivers them all, and on a connection that sends
    more than 100 requests before it closes the loop waits forever on the
    101st, so the handler never dispatches anything. *)
Theorem read_loop_holds_100_requests (P : Provider) (c : Conn) :
  (forall msgs, WsReadLoop c = Return msgs -> (List.length msgs <= 100)%nat)
  /\ (Forall request_frame c ->
      ((List.length c <= 100)%nat ->
       exists msgs,
         WsReadLoop c = Return msgs /\ List.length msgs = List.length c)
      /\ ((100 < List.length c)%nat ->
          WsReadLoop c = Blocked
          /\ forall st : State P, GetHandler c st = (Blocked, st))).
Proof.
  split.
  - intros msgs H. unfold WsReadLoop in H.
    eapply WsReadLoop_from_length; [exact H | simpl; lia].
  - intro Hc.
    pose proof (@WsReadLoop_from_requests c [] Hc) as H. simpl in H.
    assert (H0 : (0 <= 100)%nat) by lia. specialize (H H0).
    split; intro Hlen.
    + destruct (Nat.leb_spec (Datatypes.length c) 100); [|lia].
      destruct H as [msgs [Hret Hl]]. exists msgs. split; assumption.
    + destruct (Nat.leb_spec (Datatypes.length c) 100); [lia|].
      split; [exact H|]. intro st. unfold GetHandler, WsReadLoop.
      rewrite H. reflexivity.
Qed.

Lemma getVersion_frame_is_request : request_frame getVersion_frame.
Proof.
  exists 40, (Some (json.Object [("id", json.Int 1);
                                 ("method", json.Str "getVersion")])),
    {| Id := 1; Jsonrpc := ""; Method := "getVersion"; Params := None |}.
  split; [reflexivity|]. split; [lia|]. split.
  - vm_compute. reflexivity.
  - discriminate.
Qed.

Lemma read_loop_holds_100_requests_witness :
  GetHandler (repeat getVersion_frame 101) Echo.start = (Blocked, Echo.start)
  /\ exists msgs,
       WsReadLoop (repeat getVersion_frame 100) = Return msgs
       /\ List.length msgs = 100%nat.
Proof.
  assert (Hall : forall k, Forall request_frame (repeat getVersion_frame k)).
  { intro k. apply Forall_forall. intros ev Hin.
    apply repeat_spec in Hin. subst. exact getVersion_frame_is_request. }
  split.
  - destruct (read_loop_holds_100_requests Echo.provider
                (repeat getVersion_frame 101)) as [_ H].
    destruct (H (Hall 101%nat)) as [_ Hblocked].
    apply Hblocked. rewrite repeat_length. lia.
  - destruct (read_loop_holds_100_requests Echo.provider
                (repeat getVersion_frame 100)) as [_ H].
    destruct (H (Hall 100%nat)) as [Hfits _].
    destruct Hfits as [msgs [Hret Hlen]]; [rewrite repeat_length; lia|].
    exists msgs. split; [exact Hret|]. rewrite Hlen. apply repeat_length.
Defined.

(** ** Faults end the read loop *)

(** What [wsRead] does on the reads [c1] is what it does on [c1] followed by
    more reads, as long as it stops inside [c1]. *)
Lemma wsRead_from_app msg c1 rest :
  match wsRead_from msg c1 with
  | (Return (m, None), c') =>
      wsRead_from msg (c1 ++ rest) = (Return (m, None), c' ++ rest)
  | (Panic reason, c') =>
      wsRead_from msg (c1 ++ rest) = (Panic reason, c' ++ rest)
  | _ => True
  end.
Proof.
  revert msg. induction c1 as [|ev c1 IH]; intro msg; simpl; [exact I|].
  destruct ev as [n data|err]; [|exact I].
  destruct (512 <=? n); [reflexivity|].
  destruct (json.Unmarshal _ data msg) as [msg' [e|]]; [exact I|].
  destruct (String.length (Method msg') =? 0)%nat; [apply IH | reflexivity].
Qed.

(** When [wsRead] uses up [c1] or fails inside it, it fails on [c1]
    followed by a fault too. *)
Lemma wsRead_from_fault msg c1 ev c2 m e c' :
  fault ev -> Method msg = "" ->
  wsRead_from msg c1 = (Return (m, Some e), c') ->
  exists m' e' c'',
    wsRead_from msg (c1 ++ ev :: c2) = (Return (m', Some e'), c'').
Proof.
  intros Hev. revert msg.
  induction c1 as [|x c1 IH]; intros msg Hm H; simpl in *.
  - destruct ev as [n data|err]; [|repeat eexists].
    destruct Hev as [Hn Hdec]. destruct (Z.leb_spec 512 n); [lia|].
    specialize (Hdec msg).
    destruct (json.Unmarshal _ data msg) as [msg' [e0|]]; simpl in Hdec;
      [repeat eexists | contradiction].
  - destruct x as [n data|err]; [|repeat eexists].
    destruct (512 <=? n); [discriminate|].
    destruct (json.Unmarshal _ data msg) as [msg' [e0|]]; [repeat eexists|].
    destruct (String.length (Method msg') =? 0)%nat eqn:Hlen; [|discriminate].
    apply length_zero in Hlen. now apply IH.
Qed.

Lemma wsRead_from_shorter msg c m c' :
  wsRead_from msg c = (Return (m, None), c') ->
  (List.length c' < List.length c)%nat.
Proof.
  revert msg. induction c as [|x c IH]; intros msg H; simpl in H;
    [discriminate|].
  destruct x as [n data|err]; [|discriminate].
  destruct (512 <=? n); [discriminate|].
  destruct (json.Unmarshal _ data msg) as [msg' [e0|]]; [discriminate|].
  destruct (String.length (Method msg') =? 0)%nat.
  - apply IH in H. simpl. lia.
  - inversion H; subst. simpl. lia.
Qed.

Lemma wsRead_from_not_blocked msg c c' :
  wsRead_from msg c <> (Blocked, c').
Proof.
  revert msg. induction c as [|x c IH]; intros msg H; simpl in H;
    [discriminate|].
  destruct x as [n data|err]; [|discriminate].
  destruct (512 <=? n); [discriminate|].
  destruct (json.Unmarshal _ data msg) as [msg' [e0|]]; [discriminate|].
  destruct (String.length (Method msg') =? 0)%nat;
    [now apply IH in H | discriminate].
Qed.

Lemma WsReadLoop_from_fault c1 ev c2 out :
  fault ev ->
  WsReadLoop_from (c1 ++ ev :: c2) out = WsReadLoop_from c1 out.
Proof.
  intro Hev. remember (List.length c1) as k eqn:Hk.
  revert c1 out Hk.
  induction k as [k IH] using (well_founded_induction Wf_nat.lt_wf).
  intros c1 out Hk.
  rewrite (WsReadLoop_from_eq c1), (WsReadLoop_from_eq (c1 ++ ev :: c2)).
  unfold wsRead.
  pose proof (wsRead_from_app zeroMsg c1 (ev :: c2)) as Happ.
  destruct (wsRead_from zeroMsg c1) as [[[m [e|]]|reason|] c'] eqn:E.
  - destruct (@wsRead_from_fault zeroMsg c1 ev c2 m e c' Hev eq_refl E)
      as [m' [e' [c'' H']]].
    rewrite H'. reflexivity.
  - rewrite Happ.
    destruct (Datatypes.length out <? 100)%nat; [|reflexivity].
    apply wsRead_from_shorter in E.
    apply (IH (List.length c')); [lia | reflexivity].
  - rewrite Happ. reflexivity.
  - exfalso. exact (wsRead_from_not_blocked _ _ E).
Qed.

(** X7. A read that fails, or a frame that does not decode, ends the
    session the way the end of the stream does: the requests read before it
    are handled as if the connection had closed there, and nothing that
    arrives after it is ever read. *)
Theorem fault_ends_the_read_loop (P : Provider) (c1 c2 : Conn)
    (ev : ReadEvent) (st : State P) :
  fault ev ->
  WsReadLoop (c1 ++ ev :: c2) = WsReadLoop c1
  /\ GetHandler (c1 ++ ev :: c2) st = GetHandler c1 st.
Proof.
  intro Hev.
  assert (H : WsReadLoop (c1 ++ ev :: c2) = WsReadLoop c1)
    by (now apply WsReadLoop_from_fault).
  split; [exact H|]. unfold GetHandler. rewrite H. reflexivity.
Qed.

Lemma fault_ends_the_read_loop_witness :
  GetHandler ([getVersion_frame] ++ ReadFrame 7 None
                :: [getVersion_frame; getVersion_frame])
    connected
  = GetHandler [getVersion_frame] connected
  /\ WsReadLoop ([getVersion_frame]
                   ++ ReadFail (errorString "connection reset")
                   :: [getVersion_frame])
     = WsReadLoop [getVersion_frame].
Proof.
  split.
  - apply fault_ends_the_read_loop. split; [lia|].
    intro msg. discriminate.
  - apply (@fault_ends_the_read_loop Echo.provider [getVersion_frame]
             [getVersion_frame] (ReadFail (errorString "connection reset"))
             Echo.start).
    exact I.
Defined.

(** ** More on discovery *)

Lemma written_app (P : Provider) (e1 e2 : list (Event P)) :
  written (e1 ++ e2) = written e1 ++ written e2.
Proof. unfold written. apply flat_map_app. Qed.

Lemma update_length (A : Type) (l : list A) i a :
  List.length (update l i a) = List.length l.
Proof.
  revert i. induction l as [|x l IH]; intros [|i]; simpl; auto.
Qed.

Lemma nth_error_update (A : Type) (l : list A) i a :
  (i < List.length l)%nat -> nth_error (update l i a) i = Some a.
Proof.
  revert i. induction l as [|x l IH]; intros [|i] H; simpl in *;
    try lia; [reflexivity | apply IH; lia].
Qed.


Lemma update_app_last (A : Type) (l : list A) x a :
  update (l ++ [x]) (List.length l) a = l ++ [a].
Proof. induction l as [|y l IH]; simpl; [reflexivity | now rewrite IH]. Qed.



(** X9. An advertisement that the scan callback accepts while its channel
    is empty is written by the next turn of the forwarding goroutine as one
    [didDiscoverPeripheral] push that carries the address, the local name
    and the signal strength of the advertisement and the next id of the
    counter, and the channel is empty again. An advertisement that the
    callback drops leaves the session as it was. *)
Theorem accepted_advertisement_is_pushed (P : Provider)
    (device : bluetooth.ScanResult) (task : ScanTask) (st : State P) :
  scanning st = Some task ->
  nth_error (chans st) (scan_devices task) = Some empty_chan ->
  (scanCallback (scan_filter task) device = None ->
   advertise device st = (Return tt, st))
  /\ (scanCallback (scan_filter task) device <> None ->
      let st2 := snd (run [Advertise device; Forward (scan_devices task)] st) in
      fst (run [Advertise device; Forward (scan_devices task)] st) = Return tt
      /\ trace st2
         = trace st
           ++ [WsWrite (didDiscoverPeripheral (wrap64 (MsgID st + 1)) device)]
      /\ chans st2 = chans st
      /\ scanning st2 = scanning st).
Proof.
  intros Hscan Hch. split.
  - intro Hcb. unfold advertise, bind, get. rewrite Hscan, Hch. simpl.
    rewrite Hcb. reflexivity.
  - intro Hcb. unfold scanCallback in Hcb.
    assert (Hd : scanCallback (scan_filter task) device
                 = Some (snapshot device)).
    { unfold scanCallback.
      destruct (String.length (bluetooth.LocalName device) =? 0)%nat;
        [contradiction|].
      destruct (negb (matchDevice device (scan_filter task)));
        [contradiction | reflexivity]. }
    assert (Hlt : (scan_devices task < List.length (chans st))%nat)
      by (apply nth_error_Some; rewrite Hch; discriminate).
    unfold run, forEach, step, advertise, forward, bind, get, set_scan, ret,
      NewMsg, WsSend, emit.
    simpl. rewrite Hscan, Hch. simpl. rewrite Hd. simpl.
    rewrite nth_error_update by assumption. simpl.
    assert (Hupd : update
                     (update (chans st) (scan_devices task)
                        (send empty_chan (snapshot device)))
                     (scan_devices task) empty_chan
                   = chans st).
    { clear -Hch. revert Hch. generalize (scan_devices task) as i.
      induction (chans st) as [|x l IH]; intros [|i] H; simpl in *;
        try discriminate.
      - now inversion H.
      - f_equal. now apply IH. }
    unfold empty_chan in Hupd. simpl in Hupd. fold empty_chan in Hupd.
    repeat split; simpl; assumption.
Qed.

Lemma accepted_advertisement_is_pushed_witness :
  written (trace (snd (run [Advertise advert_foo; Forward 0%nat]
                         (snd (dispatch discover_request Echo.start)))))
  = [FrameResult (Respond discover_request AnyNil);
     didDiscoverPeripheral 1 advert_foo]
  /\ advertise advert_anonymous (snd (dispatch discover_request Echo.start))
     = (Return tt, snd (dispatch discover_request Echo.start)).
Proof.
  destruct (@accepted_advertisement_is_pushed Echo.provider advert_foo
              {| scan_filter := [{| Name := "Foo"; NamePrefix := "";
                                    Services := [] |}];
                 scan_devices := 0%nat |}
              (snd (dispatch discover_request Echo.start))
              eq_refl eq_refl) as [_ Hyes].
  destruct Hyes as [_ [Htrace _]]; [discriminate|].
  destruct (@accepted_advertisement_is_pushed Echo.provider advert_anonymous
              {| scan_filter := [{| Name := "Foo"; NamePrefix := "";
                                    Services := [] |}];
                 scan_devices := 0%nat |}
              (snd (dispatch discover_request Echo.start))
              eq_refl eq_refl) as [Hno _].
  split; [|apply Hno; reflexivity].
  cbv zeta in Htrace. apply (f_equal written) in Htrace.
  etransitivity; [exact Htrace | reflexivity].
Defined.

(** ** Connecting *)

(** X10. A [connect] whose parameters decode stores in [DEVICE] whatever
    [adapter.Connect] returned, also when it returned an error, and replies
    with a null result or with the error. A failed attempt therefore drops
    the handle of an earlier connection (without any call that releases
    it). *)
Theorem connect_replaces_the_device (P : Provider) (msg : Msg)
    (params : ConnectParams) (st : State P) :
  Method msg = "connect" ->
  ConnectParamsFromJson (Params msg) = OK params ->
  let r := @Connect P (bluetooth.Address_Set (PeripheralId params))
             defaultConnectionParams (world st) in
  let st1 := snd (dispatch msg st) in
  fst (dispatch msg st) = Return tt
  /\ DEVICE st1 = fst (fst r)
  /\ world st1 = snd r
  /\ written (trace st1)
     = written (trace st)
       ++ [match snd (fst r) with
           | Some err => FrameError (Msg_Error msg err)
           | None => FrameResult (Respond msg AnyNil)
           end].
Proof.
  intros Hm Hp. unfold dispatch. rewrite Hm. simpl.
  unfold case_connect. rewrite Hp.
  unfold bind, StopScan, emit, get, call, set_DEVICE, set_scan,
    reply, reply_error, WsSend, ret, bind. simpl.
  destruct (scanning st); simpl;
    destruct (Connect _ _ _) as [[d [err|]] w]; simpl;
    rewrite !written_app; simpl; rewrite !app_nil_r;
    repeat split; reflexivity.
Qed.

Lemma connect_replaces_the_device_witness :
  DEVICE (snd (dispatch connect_request (Flaky.start Flaky.picky)))
  = Some (bluetooth.Address_Set "AA:BB:CC:DD:EE:FF")
  /\ DEVICE (snd (dispatch connect_elsewhere
                    (snd (dispatch connect_request
                            (Flaky.start Flaky.picky)))))
     = None
  /\ fst (dispatch read_request
            (snd (dispatch connect_elsewhere
                    (snd (dispatch connect_request
                            (Flaky.start Flaky.picky))))))
     = Panic nilPointerDereference.
Proof.
  destruct (@connect_replaces_the_device (Flaky.provider Flaky.picky)
              connect_request {| PeripheralId := "AA:BB:CC:DD:EE:FF" |}
              (Flaky.start Flaky.picky) eq_refl eq_refl)
    as [_ [Hfirst _]].
  destruct (@connect_replaces_the_device (Flaky.provider Flaky.picky)
              connect_elsewhere {| PeripheralId := "11:22:33:44:55:66" |}
              (snd (dispatch connect_request (Flaky.start Flaky.picky)))
              eq_refl eq_refl)
    as [_ [Hsecond _]].
  split; [exact Hfirst|]. split; [exact Hsecond|]. reflexivity.
Defined.

(** ** Discovering the characteristic *)

(** The [write] case spells out what [getDeviceCharacteristic] does. *)
Lemma case_write_discovers (P : Provider) (msg : Msg) (params : UpdateParams)
    (st : State P) :
  UpdateParamsFromJson (Params msg) = OK params ->
  Encoding params = "base64" ->
  case_write msg st
  = bind (@deref_DEVICE P)
      (fun device =>
         bind (getDeviceCharacteristic device
                 (bluetooth.NewUUID (ServiceId params))
                 (bluetooth.NewUUID (CharacteristicId params)))
           (fun r =>
              match r with
              | Fail err => reply_error msg err
              | OK char =>
                  match base64.DecodeString (Message params) with
                  | Fail err => reply_error msg err
                  | OK buf =>
                      bind (call (CallWriteWithoutResponse char buf)
                              (@WriteWithoutResponse P char buf))
                        (fun w =>
                           match w with
                           | Fail err => reply_error msg err
                           | OK n => reply msg (AnyInt n)
                           end)
                  end
              end)) st.
Proof.
  intros Hp He. unfold case_write. rewrite Hp, He. simpl.
  unfold bind, deref_DEVICE, getDeviceCharacteristic, bind, call, ret, panic.
  destruct (DEVICE st) as [d|]; [|reflexivity].
  destruct (DiscoverServices _ _ _) as [[[|s0 ss]|err] w1]; try reflexivity.
  simpl.
  destruct (DiscoverCharacteristics _ _ _) as [[[|ch cs]|err] w2];
    reflexivity.
Qed.

(** How each of the four cases goes on after its parameters. *)
Lemma dispatch_requested (P : Provider) (msg : Msg) (S C : uuid.UUID)
    (st : State P) :
  requested msg = Some (S, C) ->
  exists k : res (DeviceCharacteristic P) -> M P unit,
    dispatch msg st
    = bind (@deref_DEVICE P)
        (fun device =>
           bind (getDeviceCharacteristic device (bluetooth.NewUUID S)
                   (bluetooth.NewUUID C)) k) st
    /\ forall err, k (Fail err) = reply_error msg err.
Proof.
  unfold requested, dispatch. intro H.
  destruct (String.eqb (Method msg) "getVersion") eqn:Hv.
  { apply String.eqb_eq in Hv. rewrite Hv in H. discriminate. }
  destruct (String.eqb (Method msg) "discover") eqn:Hd.
  { apply String.eqb_eq in Hd. rewrite Hd in H. discriminate. }
  destruct (String.eqb (Method msg) "connect") eqn:Hc.
  { apply String.eqb_eq in Hc. rewrite Hc in H. discriminate. }
  destruct (String.eqb (Method msg) "startNotifications") eqn:Hstart.
  { simpl in H. unfold case_startNotifications.
    destruct (NotificationsParamsFromJson (Params msg)) as [p|];
      inversion H; subst.
    eexists. split; [reflexivity|]. reflexivity. }
  destruct (String.eqb (Method msg) "write") eqn:Hw.
  { apply String.eqb_eq in Hw. rewrite Hw in H. simpl in H.
    destruct (UpdateParamsFromJson (Params msg)) as [p|] eqn:Hp;
      [|discriminate].
    destruct (String.eqb_spec (Encoding p) "base64") as [He|]; [|discriminate].
    inversion H; subst.
    rewrite (case_write_discovers msg st Hp He).
    eexists. split; [reflexivity|]. reflexivity. }
  destruct (String.eqb (Method msg) "read") eqn:Hr.
  { apply String.eqb_eq in Hr. rewrite Hr in H. simpl in H.
    unfold case_read.
    destruct (ReadParamsFromJson (Params msg)) as [p|]; inversion H; subst.
    eexists. split; [reflexivity|]. reflexivity. }
  destruct (String.eqb (Method msg) "stopNotifications") eqn:Hstop;
    [|discriminate].
  simpl in H. unfold case_stopNotifications.
  destruct (NotificationsParamsFromJson (Params msg)) as [p|];
    inversion H; subst.
  eexists. split; [reflexivity|]. reflexivity.
Qed.

(** X11. In [startNotifications], [stopNotifications], [read] and [write]
    on a connected session, the discovery of the service decides how the
    request ends: an error of the provider is sent back as the error reply
    of the request, after which the dispatcher goes on; a discovery that
    succeeds with no service makes the handler panic on [services[0]],
    and no reply is written. In both cases the characteristics are not
    asked for. *)
Theorem service_discovery_decides (P : Provider) (msg : Msg)
    (S C : uuid.UUID) (d : BtDevice P) (st : State P) :
  requested msg = Some (S, C) ->
  DEVICE st = Some d ->
  let ask := call (CallDiscoverServices d [bluetooth.NewUUID S])
               (@DiscoverServices P d [bluetooth.NewUUID S]) in
  (forall err,
      fst (ask st) = Return (Fail err) ->
      dispatch msg st
      = (Return tt,
         snd (emit (WsWrite (FrameError (Msg_Error msg err)))
                (snd (ask st)))))
  /\ (fst (ask st) = Return (OK []) ->
      dispatch msg st = (Panic indexOutOfRange, snd (ask st))).
Proof.
  intros Hreq Hdev ask.
  destruct (@dispatch_requested P msg S C st Hreq) as [k [Hk Hfail]].
  rewrite Hk. subst ask.
  unfold bind, deref_DEVICE, getDeviceCharacteristic, bind, call, ret, panic.
  rewrite Hdev. simpl.
  destruct (DiscoverServices _ _ _) as [r w]. simpl. split.
  - intros err Herr. inversion Herr; subst. rewrite Hfail.
    unfold reply_error, WsSend, bind, emit, ret. simpl.
    rewrite ?Hdev. reflexivity.
  - intro Hnone. inversion Hnone; subst. rewrite ?Hdev. reflexivity.
Qed.

Lemma service_discovery_decides_witness :
  fst (dispatch startNotifications_request
         (snd (dispatch connect_request (Flaky.start Flaky.bare))))
  = Panic indexOutOfRange
  /\ written (trace (snd (dispatch startNotifications_request
                            (snd (dispatch connect_request
                                    (Flaky.start Flaky.bare))))))
     = [FrameResult (Respond connect_request AnyNil)].
Proof.
  destruct (@service_discovery_decides (Flaky.provider Flaky.bare)
              startNotifications_request nus nus_tx
              (bluetooth.Address_Set "AA:BB:CC:DD:EE:FF")
              (snd (dispatch connect_request (Flaky.start Flaky.bare)))
              eq_refl eq_refl) as [_ Hnone].
  rewrite (Hnone eq_refl). split; reflexivity.
Defined.

(** ** Reading *)

(** The [read] case once the characteristic is found. *)
Lemma case_read_found (P : Provider) (msg : Msg) (params : ReadParams)
    (d : BtDevice P) (ch : DeviceCharacteristic P) (st st1 : State P) :
  Method msg = "read" ->
  ReadParamsFromJson (Params msg) = OK params ->
  DEVICE st = Some d ->
  getDeviceCharacteristic d (bluetooth.NewUUID (Read_ServiceId params))
    (bluetooth.NewUUID (Read_CharacteristicId params)) st
  = (Return (OK ch), st1) ->
  dispatch msg st
  = bind (if StartNotifications params
          then let cb := notificationCallback (Read_CharacteristicId params)
                           (Read_CharacteristicId params) in
               call (CallEnableNotifications ch (Some cb))
                 (@EnableNotifications P ch (Some cb))
          else ret None)
      (fun e =>
         match e with
         | Some err => reply_error msg err
         | None =>
             bind (call (CallRead ch) (@Read P ch 512))
               (fun rd =>
                  match rd with
                  | Fail err => reply_error msg err
                  | OK (n, buf) =>
                      if (n <? 0) || (512 <? n)
                      then panic "runtime error: slice bounds out of range"
                      else bind (WsSend
                                   (FrameResult
                                      (RespondBytes msg
                                         (firstn (Z.to_nat n) buf))))
                             (fun _ => ret tt)
                  end)
         end) st1.
Proof.
  intros Hm Hp Hdev Hfound. unfold dispatch. rewrite Hm. simpl.
  unfold case_read. rewrite Hp. unfold bind at 1. unfold deref_DEVICE.
  rewrite Hdev. unfold bind at 1. rewrite Hfound. reflexivity.
Qed.

(** X12. A [read] that asks for notifications enables them on the
    characteristic before it reads the value, with a callback that captured
    the characteristic id twice. If enabling fails, the error is the reply
    and the value is not read; if it succeeds, the read is the next call to
    the provider. *)
Theorem read_subscribes_before_reading (P : Provider) (msg : Msg)
    (params : ReadParams) (d : BtDevice P) (ch : DeviceCharacteristic P)
    (st st1 : State P) :
  Method msg = "read" ->
  ReadParamsFromJson (Params msg) = OK params ->
  StartNotifications params = true ->
  DEVICE st = Some d ->
  getDeviceCharacteristic d (bluetooth.NewUUID (Read_ServiceId params))
    (bluetooth.NewUUID (Read_CharacteristicId params)) st
  = (Return (OK ch), st1) ->
  let cb := notificationCallback (Read_CharacteristicId params)
              (Read_CharacteristicId params) in
  let enable := CallEnableNotifications ch (Some cb) in
  (forall err,
      fst (@EnableNotifications P ch (Some cb) (world st1)) = Some err ->
      fst (dispatch msg st) = Return tt
      /\ trace (snd (dispatch msg st))
         = trace st1 ++ [enable; WsWrite (FrameError (Msg_Error msg err))])
  /\ (fst (@EnableNotifications P ch (Some cb) (world st1)) = None ->
      exists tail,
        trace (snd (dispatch msg st))
        = trace st1 ++ [enable; CallRead ch] ++ tail).
Proof.
  intros Hm Hp Hstart Hdev Hfound cb enable.
  rewrite (@case_read_found P msg params d ch st st1 Hm Hp Hdev Hfound). rewrite Hstart.
  subst enable. fold cb.
  unfold bind, call, reply_error, WsSend, emit, ret, panic, bind. simpl.
  destruct (@EnableNotifications P ch (Some cb) (world st1)) as [e w]. simpl.
  split.
  - intros err ->. simpl. rewrite <- app_assoc. split; reflexivity.
  - intros ->. simpl.
    destruct (@Read P ch 512 w) as [[[n buf]|err] w']; simpl.
    + destruct ((n <? 0) || (512 <? n)); simpl.
      * exists []. now rewrite <- app_assoc.
      * eexists [_]. now rewrite <- !app_assoc.
    + eexists [_]. now rewrite <- !app_assoc.
Qed.

Lemma read_subscribes_before_reading_witness :
  written (trace (snd (dispatch read_and_subscribe_request
                         (snd (dispatch connect_request
                                 (Flaky.start Flaky.mute))))))
  = [FrameResult (Respond connect_request AnyNil);
     FrameError (Msg_Error read_and_subscribe_request
                   "notifications not supported")]
  /\ exists tail,
       trace (snd (dispatch read_and_subscribe_request connected))
       = trace connected
         ++ [CallDiscoverServices (P := Echo.provider)
               (bluetooth.Address_Set "AA:BB:CC:DD:EE:FF")
               [bluetooth.NewUUID nus];
             CallDiscoverCharacteristics (P := Echo.provider)
               (bluetooth.NewUUID nus) [bluetooth.NewUUID nus_tx]]
         ++ [CallEnableNotifications (P := Echo.provider)
               (bluetooth.NewUUID nus_tx)
               (Some (notificationCallback nus_tx nus_tx));
             CallRead (P := Echo.provider) (bluetooth.NewUUID nus_tx)]
         ++ tail.
Proof.
  split.
  - destruct (@read_subscribes_before_reading (Flaky.provider Flaky.mute)
                read_and_subscribe_request
                {| Read_ServiceId := nus; Read_CharacteristicId := nus_tx;
                   StartNotifications := true |}
                (bluetooth.Address_Set "AA:BB:CC:DD:EE:FF")
                (bluetooth.NewUUID nus_tx)
                (snd (dispatch connect_request (Flaky.start Flaky.mute)))
                _ eq_refl eq_refl eq_refl eq_refl eq_refl) as [Hfail _].
    destruct (Hfail "notifications not supported" eq_refl) as [_ Htrace].
    rewrite Htrace. reflexivity.
  - destruct (@read_subscribes_before_reading Echo.provider
                read_and_subscribe_request
                {| Read_ServiceId := nus; Read_CharacteristicId := nus_tx;
                   StartNotifications := true |}
                (bluetooth.Address_Set "AA:BB:CC:DD:EE:FF")
                (bluetooth.NewUUID nus_tx) connected
                _ eq_refl eq_refl eq_refl eq_refl eq_refl) as [_ Hok].
    destruct (Hok eq_refl) as [tail Htrace].
    exists tail. rewrite Htrace. reflexivity.
Defined.

(** X13. A [read] without notifications, once the characteristic is found,
    replies with the first [n] bytes of its 512-byte buffer, [n] being the
    count the provider's read reports: the result is base64 text that
    decodes to these at most 512 bytes, marked [base64]. A count above 512
    (or below 0) makes the handler panic on [buf[:n]] without a reply, and
    an error of the read is sent back as the error reply. *)
Theorem read_replies_with_the_bytes_read (P : Provider) (msg : Msg)
    (params : ReadParams) (d : BtDevice P) (ch : DeviceCharacteristic P)
    (st st1 : State P) :
  Method msg = "read" ->
  ReadParamsFromJson (Params msg) = OK params ->
  StartNotifications params = false ->
  DEVICE st = Some d ->
  getDeviceCharacteristic d (bluetooth.NewUUID (Read_ServiceId params))
    (bluetooth.NewUUID (Read_CharacteristicId params)) st
  = (Return (OK ch), st1) ->
  match fst (@Read P ch 512 (world st1)) with
  | OK (n, buf) =>
      if (n <? 0) || (512 <? n)
      then fst (dispatch msg st)
           = Panic "runtime error: slice bounds out of range"
           /\ written (trace (snd (dispatch msg st))) = written (trace st1)
      else exists text,
             fst (dispatch msg st) = Return tt
             /\ written (trace (snd (dispatch msg st)))
                = written (trace st1)
                  ++ [FrameResult
                        {| Result_Id := Id msg; Result_Jsonrpc := "2.0";
                           Result_Result := AnyString text;
                           Result_Encoding := "base64" |}]
             /\ base64.DecodeString text = OK (firstn (Z.to_nat n) buf)
             /\ (List.length (firstn (Z.to_nat n) buf) <= 512)%nat
  | Fail err =>
      fst (dispatch msg st) = Return tt
      /\ written (trace (snd (dispatch msg st)))
         = written (trace st1) ++ [FrameError (Msg_Error msg err)]
  end.
Proof.
  intros Hm Hp Hstart Hdev Hfound.
  rewrite (@case_read_found P msg params d ch st st1 Hm Hp Hdev Hfound). rewrite Hstart.
  unfold bind, call, reply_error, WsSend, emit, ret, panic, bind. simpl.
  destruct (@Read P ch 512 (world st1)) as [[[n buf]|err] w]; simpl.
  - destruct (Z.ltb_spec n 0); simpl.
    + rewrite written_app. simpl. rewrite app_nil_r. split; reflexivity.
    + destruct (Z.ltb_spec 512 n); simpl.
      * rewrite written_app. simpl. rewrite app_nil_r. split; reflexivity.
      * exists (base64.EncodeToString (firstn (Z.to_nat n) buf)).
        split; [reflexivity|]. split.
        { rewrite !written_app. simpl. rewrite app_nil_r. reflexivity. }
        split; [apply base64_facts.DecodeString_EncodeToString|].
        rewrite length_firstn. lia.
  - rewrite !written_app. simpl. rewrite app_nil_r. split; reflexivity.
Qed.

Lemma read_replies_with_the_bytes_read_witness :
  fst (dispatch read_request
         (snd (dispatch connect_request (Flaky.start Flaky.long))))
  = Panic "runtime error: slice bounds out of range"
  /\ exists text,
       written (trace (snd (dispatch read_request
                              (snd (dispatch connect_request
                                      (Flaky.start Flaky.picky))))))
       = [FrameResult (Respond connect_request AnyNil);
          FrameResult {| Result_Id := 4; Result_Jsonrpc := "2.0";
                         Result_Result := AnyString text;
                         Result_Encoding := "base64" |}]
       /\ base64.DecodeString text = OK ["f"%byte].
Proof.
  split.
  - pose proof (@read_replies_with_the_bytes_read (Flaky.provider Flaky.long)
                  read_request
                  {| Read_ServiceId := nus; Read_CharacteristicId := nus_tx;
                     StartNotifications := false |}
                  (bluetooth.Address_Set "AA:BB:CC:DD:EE:FF")
                  (bluetooth.NewUUID nus_tx)
                  (snd (dispatch connect_request (Flaky.start Flaky.long)))
                  _ eq_refl eq_refl eq_refl eq_refl eq_refl) as H.
    exact (proj1 H).
  - pose proof (@read_replies_with_the_bytes_read (Flaky.provider Flaky.picky)
                  read_request
                  {| Read_ServiceId := nus; Read_CharacteristicId := nus_tx;
                     StartNotifications := false |}
                  (bluetooth.Address_Set "AA:BB:CC:DD:EE:FF")
                  (bluetooth.NewUUID nus_tx)
                  (snd (dispatch connect_request (Flaky.start Flaky.picky)))
                  _ eq_refl eq_refl eq_refl eq_refl eq_refl) as H.
    destruct H as [text [_ [Hw [Hd _]]]].
    exists text. split; [exact Hw | exact Hd].
Defined.

(** ** Writing *)

Lemma found_then (P : Provider) (A : Type)
    (k : res (DeviceCharacteristic P) -> M P A) (d : BtDevice P)
    (S C : bluetooth.UUID) (ch : DeviceCharacteristic P) (st st1 : State P) :
  DEVICE st = Some d ->
  getDeviceCharacteristic d S C st = (Return (OK ch), st1) ->
  bind (@deref_DEVICE P)
    (fun device => bind (getDeviceCharacteristic device S C) k) st
  = k (OK ch) st1.
Proof.
  intros Hdev Hfound. unfold bind at 1. unfold deref_DEVICE. rewrite Hdev.
  unfold bind at 1. rewrite Hfound. reflexivity.
Qed.

(** X14. A base64 [write], once the characteristic is found, hands to
    [WriteWithoutResponse] exactly the bytes its message decodes to and
    replies with the count the provider returns, or with its error. A
    message that is not base64 is rejected with an error reply only here,
    after the service and the characteristic were discovered, and nothing is
    written to the device. *)
Theorem write_hands_over_the_decoded_bytes (P : Provider) (msg : Msg)
    (params : UpdateParams) (d : BtDevice P) (ch : DeviceCharacteristic P)
    (st st1 : State P) :
  Method msg = "write" ->
  UpdateParamsFromJson (Params msg) = OK params ->
  Encoding params = "base64" ->
  DEVICE st = Some d ->
  getDeviceCharacteristic d (bluetooth.NewUUID (ServiceId params))
    (bluetooth.NewUUID (CharacteristicId params)) st
  = (Return (OK ch), st1) ->
  match base64.DecodeString (Message params) with
  | Fail err =>
      dispatch msg st
      = (Return tt, snd (emit (WsWrite (FrameError (Msg_Error msg err))) st1))
  | OK buf =>
      fst (dispatch msg st) = Return tt
      /\ trace (snd (dispatch msg st))
         = trace st1
           ++ [CallWriteWithoutResponse ch buf;
               WsWrite
                 match fst (@WriteWithoutResponse P ch buf (world st1)) with
                 | OK n => FrameResult (Respond msg (AnyInt n))
                 | Fail err => FrameError (Msg_Error msg err)
                 end]
  end.
Proof.
  intros Hm Hp He Hdev Hfound.
  assert (Hd : dispatch msg st = case_write msg st).
  { unfold dispatch. rewrite Hm. reflexivity. }
  rewrite Hd, (@case_write_discovers P msg params st Hp He).
  rewrite found_then with (d := d) (ch := ch) (st1 := st1) by assumption.
  destruct (base64.DecodeString (Message params)) as [buf|err];
    [|reflexivity].
  unfold bind, call, reply, reply_error, WsSend, emit, ret. simpl.
  destruct (@WriteWithoutResponse P ch buf (world st1)) as [[n|err] w];
    simpl; rewrite <- app_assoc; split; reflexivity.
Qed.

Lemma write_hands_over_the_decoded_bytes_witness :
  trace (snd (dispatch (write_request_with "Zm9v" false) connected))
  = trace connected
    ++ [CallDiscoverServices (P := Echo.provider)
          (bluetooth.Address_Set "AA:BB:CC:DD:EE:FF") [bluetooth.NewUUID nus];
        CallDiscoverCharacteristics (P := Echo.provider)
          (bluetooth.NewUUID nus) [bluetooth.NewUUID nus_tx]]
    ++ [CallWriteWithoutResponse (P := Echo.provider)
          (bluetooth.NewUUID nus_tx) ["f"%byte; "o"%byte; "o"%byte];
        WsWrite (FrameResult (Respond (write_request_with "Zm9v" false)
                                (AnyInt 3)))]
  /\ written (trace (snd (dispatch (write_request_with "Zm9" false)
                            connected)))
     = written (trace connected)
       ++ [FrameError (Msg_Error (write_request_with "Zm9" false)
                         "illegal base64 data")].
Proof.
  split.
  - pose proof (@write_hands_over_the_decoded_bytes Echo.provider
                  (write_request_with "Zm9v" false)
                  {| ServiceId := nus; CharacteristicId := nus_tx;
                     Message := "Zm9v"; Encoding := "base64";
                     WithResponse := false |}
                  (bluetooth.Address_Set "AA:BB:CC:DD:EE:FF")
                  (bluetooth.NewUUID nus_tx) connected
                  _ eq_refl eq_refl eq_refl eq_refl eq_refl) as H.
    destruct H as [_ Htrace]. rewrite Htrace. reflexivity.
  - pose proof (@write_hands_over_the_decoded_bytes Echo.provider
                  (write_request_with "Zm9" false)
                  {| ServiceId := nus; CharacteristicId := nus_tx;
                     Message := "Zm9"; Encoding := "base64";
                     WithResponse := false |}
                  (bluetooth.Address_Set "AA:BB:CC:DD:EE:FF")
                  (bluetooth.NewUUID nus_tx) connected
                  _ eq_refl eq_refl eq_refl eq_refl eq_refl) as H.
    simpl in H. rewrite H. reflexivity.
Defined.

(** X15. The [withResponse] member of a [write] is never looked at: two
    writes with the same id whose parameters agree on everything else are
    handled alike, provider calls and reply included. *)
Theorem withResponse_is_ignored (P : Provider) (m1 m2 : Msg)
    (p1 p2 : UpdateParams) (st : State P) :
  Method m1 = "write" -> Method m2 = "write" -> Id m1 = Id m2 ->
  UpdateParamsFromJson (Params m1) = OK p1 ->
  UpdateParamsFromJson (Params m2) = OK p2 ->
  ServiceId p1 = ServiceId p2 ->
  CharacteristicId p1 = CharacteristicId p2 ->
  Message p1 = Message p2 ->
  Encoding p1 = Encoding p2 ->
  dispatch m1 st = dispatch m2 st.
Proof.
  intros H1 H2 Hid Hp1 Hp2 Hs Hc Hmsg He.
  unfold dispatch. rewrite H1, H2. simpl.
  unfold case_write. rewrite Hp1, Hp2, Hs, Hc, Hmsg, He.
  unfold reply, reply_error, Msg_Error, Respond. rewrite Hid. reflexivity.
Qed.

Lemma withResponse_is_ignored_witness :
  dispatch (write_request_with "Zg==" true) connected
  = dispatch (write_request_with "Zg==" false) connected.
Proof.
  apply (@withResponse_is_ignored Echo.provider
           (write_request_with "Zg==" true) (write_request_with "Zg==" false)
           {| ServiceId := nus; CharacteristicId := nus_tx;
              Message := "Zg=="; Encoding := "base64";
              WithResponse := true |}
           {| ServiceId := nus; CharacteristicId := nus_tx;
              Message := "Zg=="; Encoding := "base64";
              WithResponse := false |});
    reflexivity.
Defined.

(** ** Payloads *)

(** X16. What the session sends as bytes can be read back: the result of
    [RespondBytes] is marked [base64] and decodes to the buffer it was built
    from, and the push a notification callback writes for a payload carries
    a [message] that decodes to that payload, marked [base64], under the
    method [characteristicDidChange] and the next id of the counter. *)
Theorem payloads_decode_back (P : Provider) (m : Msg) (cb : Closure)
    (buf : list byte) (st : State P) :
  (exists text,
      RespondBytes m buf
      = {| Result_Id := Id m; Result_Jsonrpc := "2.0";
           Result_Result := AnyString text; Result_Encoding := "base64" |}
      /\ base64.DecodeString text = OK buf)
  /\ exists text,
       invoke cb buf st
       = (Return tt,
          snd (emit
                 (WsWrite
                    (FrameMsg
                       {| Id := wrap64 (MsgID st + 1); Jsonrpc := "2.0";
                          Method := "characteristicDidChange";
                          Params :=
                            Some (json.Object
                                    [("serviceId",
                                      json.Str
                                        (uuid.String (captured_ServiceId cb)));
                                     ("characteristicId",
                                      json.Str
                                        (uuid.String
                                           (captured_CharacteristicId cb)));
                                     ("message", json.Str text);
                                     ("encoding", json.Str "base64");
                                     ("withResponse", json.Bool false)]) |}))
                 (with_MsgID (wrap64 (MsgID st + 1)) st)))
       /\ base64.DecodeString text = OK buf.
Proof.
  split; exists (base64.EncodeToString buf);
    (split; [reflexivity | apply base64_facts.DecodeString_EncodeToString]).
Qed.

(** ** Enabling and disabling notifications *)

(** X17. Once the characteristic is found, [startNotifications] makes one
    more provider call, [EnableNotifications] with a callback that captured
    the characteristic id twice, and [stopNotifications] one as well,
    [EnableNotifications] with no callback; each replies with a null result
    if the call succeeds and with the provider's error if not. Neither
    reads nor writes the characteristic. *)
Theorem notifications_are_one_provider_call (P : Provider) (msg : Msg)
    (params : NotificationsParams) (d : BtDevice P)
    (ch : DeviceCharacteristic P) (st st1 : State P) :
  Method msg = "startNotifications" \/ Method msg = "stopNotifications" ->
  NotificationsParamsFromJson (Params msg) = OK params ->
  DEVICE st = Some d ->
  getDeviceCharacteristic d
    (bluetooth.NewUUID (Notifications_ServiceId params))
    (bluetooth.NewUUID (Notifications_CharacteristicId params)) st
  = (Return (OK ch), st1) ->
  let cb := if String.eqb (Method msg) "startNotifications"
            then Some (notificationCallback
                         (Notifications_CharacteristicId params)
                         (Notifications_CharacteristicId params))
            else None in
  fst (dispatch msg st) = Return tt
  /\ trace (snd (dispatch msg st))
     = trace st1
       ++ [CallEnableNotifications ch cb;
           WsWrite
             match fst (@EnableNotifications P ch cb (world st1)) with
             | Some err => FrameError (Msg_Error msg err)
             | None => FrameResult (Respond msg AnyNil)
             end]
  /\ world (snd (dispatch msg st))
     = snd (@EnableNotifications P ch cb (world st1)).
Proof.
  intros Hm Hp Hdev Hfound.
  destruct Hm as [Hm|Hm]; unfold dispatch; rewrite Hm; simpl;
    [unfold case_startNotifications | unfold case_stopNotifications];
    rewrite Hp;
    rewrite found_then with (d := d) (ch := ch) (st1 := st1) by assumption;
    unfold bind, call, reply, reply_error, WsSend, emit, ret; simpl;
    destruct (EnableNotifications _ _ _) as [[err|] w]; simpl;
    rewrite <- app_assoc; repeat split; reflexivity.
Qed.

Lemma notifications_are_one_provider_call_witness :
  Echo.callbacks (world (snd (dispatch startNotifications_request connected)))
  = [(bluetooth.NewUUID nus_tx, notificationCallback nus_tx nus_tx)]
  /\ Echo.callbacks
       (world (snd (dispatch stopNotifications_request subscribed)))
     = []
  /\ fst (dispatch stopNotifications_request connected) = Return tt.
Proof.
  destruct (@notifications_are_one_provider_call Echo.provider
              startNotifications_request
              {| Notifications_ServiceId := nus;
                 Notifications_CharacteristicId := nus_tx |}
              (bluetooth.Address_Set "AA:BB:CC:DD:EE:FF")
              (bluetooth.NewUUID nus_tx) connected _
              (or_introl eq_refl) eq_refl eq_refl eq_refl)
    as [_ [_ Hstart]].
  destruct (@notifications_are_one_provider_call Echo.provider
              stopNotifications_request
              {| Notifications_ServiceId := nus;
                 Notifications_CharacteristicId := nus_tx |}
              (bluetooth.Address_Set "AA:BB:CC:DD:EE:FF")
              (bluetooth.NewUUID nus_tx) subscribed _
              (or_intror eq_refl) eq_refl eq_refl eq_refl)
    as [_ [_ Hstop]].
  destruct (@notifications_are_one_provider_call Echo.provider
              stopNotifications_request
              {| Notifications_ServiceId := nus;
                 Notifications_CharacteristicId := nus_tx |}
              (bluetooth.Address_Set "AA:BB:CC:DD:EE:FF")
              (bluetooth.NewUUID nus_tx) connected _
              (or_intror eq_refl) eq_refl eq_refl eq_refl)
    as [Hret _].
  split; [rewrite Hstart; reflexivity|].
  split; [rewrite Hstop; reflexivity | exact Hret].
Defined.
